(** * modelfusion: the streaming, retry and call pipeline

  A shallow embedding of the parts of the modelfusion sources that the
  specification talks about:

  - [streamText] and [streamSpeech]
    (packages/modelfusion/src/model-function), with the stateful
    whitespace trimming of [processDelta];
  - [safeGenerate] and [generate] (src/text/generate/generate.ts);
  - [BaseUrlApiConfiguration.assembleUrl];
  - [LlamaCppCompletionModel]: [callAPI], [doStreamText],
    [withSettings] and [createLlamaCppFullDeltaIterableQueue].

  JavaScript strings are sequences of UTF-16 code units, objects used
  as records of optional settings are finite maps, and the mutable
  closure state of the stream functions is passed explicitly. *)

From Stdlib Require Import NArith ZArith QArith List Bool Ascii String Lia.
From stdpp Require Import base list gmap strings.

Local Open Scope N_scope.

(** ** JavaScript strings *)

Module Js.

(** A string value: its UTF-16 code units. *)
Abbreviation jsstring := (list N).

(** A string literal made of ASCII characters. *)
Definition lit (s : string) : jsstring :=
  map N_of_ascii (list_ascii_of_string s).

(** The code units of ECMAScript's WhiteSpace and LineTerminator
    productions; [String.prototype.trimStart], [trimEnd] and the regular
    expression class [\s] all use this set. *)
Definition isWhiteSpace (c : N) : bool :=
  (c =? 9) || (c =? 10) || (c =? 11) || (c =? 12) || (c =? 13)
  || (c =? 32) || (c =? 160) || (c =? 5760)
  || ((8192 <=? c) && (c <=? 8202))
  || (c =? 8232) || (c =? 8233) || (c =? 8239) || (c =? 8287)
  || (c =? 12288) || (c =? 65279).

(** [s.trimStart()] *)
Fixpoint trimStart (s : jsstring) : jsstring :=
  match s with
  | [] => []
  | c :: s' => if isWhiteSpace c then trimStart s' else s
  end.

(** [s.trimEnd()] *)
Definition trimEnd (s : jsstring) : jsstring :=
  rev (trimStart (rev s)).

(** [s.match(/\s+$/)]: the matcher tries the start positions from left
    to right; at a position the greedy [\s+] followed by [$] succeeds
    exactly when the rest of the string is non-empty and all white
    space.  The result is element 0 of the match array, or [None] for
    JavaScript's [null]. *)
Fixpoint matchTrailingWhitespace (s : jsstring) : option jsstring :=
  match s with
  | [] => None
  | _ :: s' =>
      if forallb isWhiteSpace s then Some s else matchTrailingWhitespace s'
  end.

(** [s.startsWith(p)] *)
Fixpoint startsWith (s p : jsstring) {struct p} : bool :=
  match p, s with
  | [], _ => true
  | _ :: _, [] => false
  | c :: p', d :: s' => (c =? d) && startsWith s' p'
  end.

(** [s.endsWith(p)] *)
Definition endsWith (s p : jsstring) : bool :=
  startsWith (rev s) (rev p).

(** [s.slice(from, to)], with negative indices counted from the end. *)
Definition slice (s : jsstring) (from to : Z) : jsstring :=
  let len := Z.of_nat (length s) in
  let clamp (i : Z) : Z :=
    if (i <? 0)%Z then Z.max (len + i) 0 else Z.min i len in
  let a := clamp from in
  let b := clamp to in
  firstn (Z.to_nat (b - a)) (skipn (Z.to_nat a) s).

Definition slash : N := 47.

End Js.

Import Js.

(** ** Errors and completions *)

(** The error values the pipeline distinguishes. *)
Inductive JsError : Type :=
| AbortError (message : string)
| ApiCallError (isRetryable : bool) (message : string)
| NoSuchToolError (toolName : string)
| OtherError (message : string).

(** The completion of a call that may throw (or of an awaited promise
    that may reject). *)
Inductive Completion (A : Type) : Type :=
| Returned (value : A)
| Threw (error : JsError).
Arguments Returned {A} value.
Arguments Threw {A} error.

(** [AbortSignal], as far as the pipeline reads it. *)
Record AbortSignal : Type := { aborted : bool }.

(** What the environment yields during one call: the identifier made by
    [createId()] and the readings of the clock, in whole milliseconds (at
    the start of the call and when its outcome is known). *)
Record Environment : Type := {
  createId : string;
  timeOrigin : Z;
  startTime : Z;
  endTime : Z
}.

(** ** AsyncQueue *)

Module AsyncQueue.

(** Modelled from the spec: util/AsyncQueue.ts is not among the sources.
    Section 3 gives the data (an ordered sequence of pending items, a
    closed flag and an optional terminal error), section 4.1 the
    operations: [push] appends to the tail and is rejected once the queue
    is closed, [close] is idempotent, and every consumer obtained from
    the iteration entry point reads the buffered items from the start in
    push order and terminates when the queue is closed and drained. *)
Record t (T : Type) : Type := Make {
  values : list T;
  closed : bool;
  terminalError : option JsError
}.
Arguments Make {T} values closed terminalError.
Arguments values {T} _.
Arguments closed {T} _.
Arguments terminalError {T} _.

(** Modelled from the spec: [new AsyncQueue<T>()], open and empty. *)
Definition empty {T : Type} : t T := Make [] false None.

(** Modelled from the spec: [queue.push(item)] appends to the tail; once
    the queue is closed the item is rejected and the queue stays as it is.
    The flag tells whether the item was accepted. *)
Definition push {T : Type} (q : t T) (item : T) : bool * t T :=
  if closed q then (false, q)
  else (true, Make (values q ++ [item]) false (terminalError q)).

(** Modelled from the spec: [queue.close()], idempotent. *)
Definition close {T : Type} (q : t T) : t T :=
  Make (values q) true (terminalError q).

(** What one [next()] of a consumer resolves to. *)
Inductive NextResult (T : Type) : Type :=
| Item (value : T)
| Done
| Failed (error : JsError)
| Pending.
Arguments Item {T} value.
Arguments Done {T}.
Arguments Failed {T} error.
Arguments Pending {T}.

(** Modelled from the spec: a consumer is its read position, and the
    iteration entry point gives a consumer that starts at the first
    buffered item. *)
Definition iterator : nat := 0%nat.

(** Modelled from the spec: one [next()] of a consumer gives the next
    buffered item in push order; behind the last item it gives the end when
    the queue is closed (or throws the terminal error, if there is one), and
    is suspended while the queue is open. *)
Definition next {T : Type} (q : t T) (position : nat) : NextResult T * nat :=
  match nth_error (values q) position with
  | Some v => (Item v, S position)
  | None =>
      if closed q then
        match terminalError q with
        | Some e => (Failed e, position)
        | None => (Done, position)
        end
      else (Pending, position)
  end.

(** How a [for await] loop over a consumer ends. *)
Inductive LoopEnd : Type :=
| Finished
| Thrown (error : JsError)
| Suspended
| OutOfFuel.

(** Modelled from the spec: [for await (const x of queue)] on a queue
    that is no longer written, as repeated [next()]: the items observed and
    the way the loop ends. *)
Fixpoint forAwait {T : Type} (fuel : nat) (q : t T) (position : nat)
  : list T * LoopEnd :=
  match fuel with
  | O => ([], OutOfFuel)
  | S fuel' =>
      match next q position with
      | (Item v, position') =>
          let (seen, fin) := forAwait fuel' q position' in (v :: seen, fin)
      | (Done, _) => ([], Finished)
      | (Failed e, _) => ([], Thrown e)
      | (Pending, _) => ([], Suspended)
      end
  end.

(** The producer side of a test: push the items one after the other. *)
Definition pushAll {T : Type} (q : t T) (items : list T) : t T :=
  fold_left (fun q item => snd (push q item)) items q.

End AsyncQueue.

(** ** Calls with effects, retry and throttle policies *)

(** An asynchronous unit of work over a world [W] (the network, the model
    server): it either returns or throws, and changes the world. *)
Definition Action (W A : Type) : Type := W -> Completion A * W.

Module Retry.

(** What a [RetryFunction] resolves to: [{status: "success", result,
    tries}], [{status: "failure", error}] or [{status: "abort"}]. *)
Inductive RetryOutcome (A : Type) : Type :=
| Success (result : A) (tries : nat)
| Failure (error : JsError)
| Abort.
Arguments Success {A} result tries.
Arguments Failure {A} error.
Arguments Abort {A}.

(** A retry policy is a value: a function from a unit of work to the
    outcome of running it. *)
Definition RetryFunction (W : Type) : Type :=
  forall A : Type, Action W A -> W -> RetryOutcome A * W.

(** A throttle policy gates a unit of work. *)
Definition ThrottleFunction (W : Type) : Type :=
  forall A : Type, Action W A -> Action W A.

(** Modelled from the spec: util/retryWithExponentialBackoff.ts is not
    among the sources.  Section 4.2: invoke the operation; an abort ends
    the loop at once with the abort outcome; a retryable failure is
    attempted again, up to [maxTries] attempts; any other failure, or the
    last attempt's, is the failure outcome.  The waiting time between two
    attempts is not part of the model.  [tries] counts the attempts made
    before this one; without an attempt to make the outcome is a
    failure. *)
Fixpoint retryLoop {W A : Type} (remaining tries : nat) (call : Action W A)
  (w : W) : RetryOutcome A * W :=
  match remaining with
  | O => (Failure (OtherError "maxTries"), w)
  | S remaining' =>
      match call w with
      | (Returned r, w') => (Success r (S tries), w')
      | (Threw (AbortError m), w') => (Abort, w')
      | (Threw (ApiCallError true m), w') =>
          match remaining' with
          | O => (Failure (ApiCallError true m), w')
          | S _ => retryLoop remaining' (S tries) call w'
          end
      | (Threw e, w') => (Failure e, w')
      end
  end.

(** Modelled from the spec: [retryWithExponentialBackoff({ maxTries })]. *)
Definition retryWithExponentialBackoff {W : Type} (maxTries : nat)
  : RetryFunction W :=
  fun A call w => retryLoop maxTries 0 call w.

(** Modelled from the spec: [retryNever] is the policy with one attempt. *)
Definition retryNever {W : Type} : RetryFunction W :=
  fun A call w => retryLoop 1 0 call w.

(** Modelled from the spec: [throttleOff] is the identity. *)
Definition throttleOff {W : Type} : ThrottleFunction W :=
  fun A call => call.

(** Modelled from the spec: core/api/callWithRetryAndThrottle.ts is not
    among the sources.  Section 4.4: the throttle gates entry and the retry
    governs the gated call, so the attempts all run inside one throttle
    slot; the caller gets the one result, or the terminal failure or abort
    as a thrown error. *)
Definition callWithRetryAndThrottle {W A : Type} (retry : RetryFunction W)
  (throttle : ThrottleFunction W) (call : Action W A) : Action W A :=
  throttle A (fun w =>
    match retry A call w with
    | (Success r _, w') => (Returned r, w')
    | (Failure e, w') => (Threw e, w')
    | (Abort, w') => (Threw (AbortError "The call was aborted."), w')
    end).

End Retry.

(** ** BaseUrlApiConfiguration *)

Module Api.

Record UrlParts : Type := {
  protocol : jsstring;
  host : jsstring;
  port : jsstring;
  path : jsstring
}.

(** The configuration object: [baseUrl] and [headers] are its own fields,
    [retry] and [throttle] those of [AbstractApiConfiguration]. *)
Record BaseUrlApiConfiguration (W : Type) : Type := {
  baseUrl : UrlParts;
  headers : gmap string jsstring;
  retry : Retry.RetryFunction W;
  throttle : Retry.ThrottleFunction W
}.
Arguments baseUrl {W} _.
Arguments headers {W} _.
Arguments retry {W} _.
Arguments throttle {W} _.

(** [BaseUrlApiConfiguration.assembleUrl], on the URL parts it reads. *)
Definition assembleUrlParts (parts : UrlParts) (path : jsstring) : jsstring :=
  let basePath := parts.(Api.path) in
  (* ensure base path ends without a slash *)
  let basePath :=
    if endsWith basePath (lit "/") then slice basePath 0 (-1) else basePath in
  (* ensure path starts with a slash *)
  let path :=
    if negb (startsWith path (lit "/")) then lit "/" ++ path else path in
  parts.(protocol) ++ lit "://" ++ parts.(host) ++ lit ":" ++ parts.(port)
    ++ basePath ++ path.

Definition assembleUrl {W : Type} (this : BaseUrlApiConfiguration W)
  (path : jsstring) : jsstring :=
  assembleUrlParts (baseUrl this) path.

End Api.

(** ** The generate pipeline (src/text/generate/generate.ts) *)

Module Generate.

(** The two places an event is delivered to: the callbacks of the call's
    options and those of the run context. *)
Inductive Observer : Type := OptionsObserver | ContextObserver.

Record StartMetadata : Type := {
  callId : string;
  functionId : option string;
  metaRunId : option string;
  metaSessionId : option string;
  metaUserId : option string;
  modelVendor : string;
  modelName : string;
  startEpochSeconds : Z
}.

Record Metadata : Type := {
  durationInMs : Z;
  tries : option nat;
  startMetadata : StartMetadata
}.

Section Pipeline.

Context {W INPUT PROMPT_TYPE RAW_OUTPUT GENERATED_OUTPUT OUTPUT : Type}.

Record GenerateModel : Type := {
  vendor : string;
  model : string;
  modelGenerate : PROMPT_TYPE -> option AbortSignal -> Action W RAW_OUTPUT;
  modelExtractOutput : RAW_OUTPUT -> Action W GENERATED_OUTPUT
}.

(** The fields of a [generate-end] event that depend on the status. *)
Inductive EndPayload : Type :=
| EndFailure (error : JsError)
| EndAbort
| EndSuccess (rawOutput : RAW_OUTPUT) (extractedOutput : GENERATED_OUTPUT)
    (processedOutput : OUTPUT).

Inductive GenerateCallEvent : Type :=
| GenerateStart (metadata : StartMetadata) (input : PROMPT_TYPE)
| GenerateEnd (metadata : Metadata) (input : PROMPT_TYPE)
    (payload : EndPayload).

(** The [status] field of an end event. *)
Definition status (payload : EndPayload) : string :=
  match payload with
  | EndFailure _ => "failure"
  | EndAbort => "abort"
  | EndSuccess _ _ _ => "success"
  end.

(** A callback [(call) => void] of the options or of the context: called
    with an event, it returns or throws.  What it does with the event is
    its own; the trace of the call records that it was handed over. *)
Definition Callback : Type := GenerateCallEvent -> Completion unit.

Record RunContext : Type := {
  runId : option string;
  sessionId : option string;
  userId : option string;
  abortSignal : option AbortSignal;
  contextOnCallStart : option Callback;
  contextOnCallEnd : option Callback
}.

(** One entry of the trace of a call: an event handed to an observer, or
    the awaited [retry(() => model.generate(...))]. *)
Inductive TraceItem : Type :=
| Notified (observer : Observer) (event : GenerateCallEvent)
| RetryCall.

(** The options object of [safeGenerate]. *)
Record GenerateOptions : Type := {
  optFunctionId : option string;
  prompt : INPUT -> Action W PROMPT_TYPE;
  input : INPUT;
  optModel : GenerateModel;
  processOutput : GENERATED_OUTPUT -> Action W OUTPUT;
  extractOutput : option (RAW_OUTPUT -> Action W GENERATED_OUTPUT);
  retry : option (Retry.RetryFunction W);
  onCallStart : option Callback;
  onCallEnd : option Callback
}.

(** [{ ok: true; result } | { ok: false; isAborted; error? }] *)
Inductive SafeResult : Type :=
| Ok (result : OUTPUT)
| NotOk (isAborted : bool) (error : option JsError).

Definition ok (r : SafeResult) : bool :=
  match r with Ok _ => true | NotOk _ _ => false end.

(** [callback?.(event)]: an absent callback is skipped; a callback that
    is present is called, and what it throws is thrown on, there being no
    [try] around the call.  The event has been handed over either way. *)
Definition notify (callback : option Callback) (observer : Observer)
  (event : GenerateCallEvent) : Completion unit * list TraceItem :=
  match callback with
  | None => (Returned tt, [])
  | Some call => (call event, [Notified observer event])
  end.

(** [optionsCallback?.(e); context?.contextCallback?.(e)]: two statements
    in a row, the second is not reached when the first throws. *)
Definition notifyBoth (optionsCallback contextCallback : option Callback)
  (event : GenerateCallEvent) : Completion unit * list TraceItem :=
  match notify optionsCallback OptionsObserver event with
  | (Threw e, delivered) => (Threw e, delivered)
  | (Returned _, delivered) =>
      let '(completion, more) :=
        notify contextCallback ContextObserver event in
      (completion, delivered ++ more)
  end.

(** [onCallStart?.(e); context?.onCallStart?.(e)] *)
Definition notifyStart (options : GenerateOptions)
  (context : option RunContext) (event : GenerateCallEvent)
  : Completion unit * list TraceItem :=
  notifyBoth (onCallStart options) (context ≫= contextOnCallStart) event.

(** [onCallEnd?.(e); context?.onCallEnd?.(e)] *)
Definition notifyEnd (options : GenerateOptions)
  (context : option RunContext) (event : GenerateCallEvent)
  : Completion unit * list TraceItem :=
  notifyBoth (onCallEnd options) (context ≫= contextOnCallEnd) event.

(** [onCallEnd?.(e); context?.onCallEnd?.(e); return result;] after the
    trace [called]. *)
Definition returnAfter (ended : Completion unit * list TraceItem)
  (called : list TraceItem) (result : SafeResult) (w : W)
  : Completion SafeResult * list TraceItem * W :=
  match ended with
  | (Threw e, delivered) => (Threw e, called ++ delivered, w)
  | (Returned _, delivered) => (Returned result, called ++ delivered, w)
  end.

(** The default of the [retry] option is [retryWithExponentialBackoff()];
    its default number of attempts is declared outside the sources. *)
Variable defaultMaxTries : nat.

Definition safeGenerate (options : GenerateOptions)
  (context : option RunContext) (env : Environment) (w : W)
  : Completion SafeResult * list TraceItem * W :=
  let extractOutput :=
    default (modelExtractOutput (optModel options)) (extractOutput options) in
  let retry :=
    default (Retry.retryWithExponentialBackoff defaultMaxTries)
      (retry options) in
  match prompt options (input options) w with
  | (Threw e, w1) => (Threw e, [], w1)
  | (Returned expandedPrompt, w1) =>
      let startEpochSeconds :=
        ((timeOrigin env + startTime env) / 1000)%Z in
      let callId := createId env in
      let startMetadata := {|
        callId := callId;
        functionId := optFunctionId options;
        metaRunId := context ≫= runId;
        metaSessionId := context ≫= sessionId;
        metaUserId := context ≫= userId;
        modelVendor := vendor (optModel options);
        modelName := model (optModel options);
        startEpochSeconds := startEpochSeconds
      |} in
      let callStartEvent := GenerateStart startMetadata expandedPrompt in
      match notifyStart options context callStartEvent with
      | (Threw e, started) => (Threw e, started, w1)
      | (Returned _, started) =>
          let '(rawOutput, w2) :=
            retry RAW_OUTPUT
              (modelGenerate (optModel options) expandedPrompt
                 (context ≫= abortSignal)) w1 in
          let called := started ++ [RetryCall] in
          let textGenerationDurationInMs :=
            (endTime env - startTime env)%Z in
          let metadata := {|
            durationInMs := textGenerationDurationInMs;
            tries :=
              match rawOutput with
              | Retry.Success _ n => Some n
              | _ => None
              end;
            startMetadata := startMetadata
          |} in
          match rawOutput with
          | Retry.Failure error =>
              let callEndEvent :=
                GenerateEnd metadata expandedPrompt (EndFailure error) in
              returnAfter (notifyEnd options context callEndEvent) called
                (NotOk false (Some error)) w2
          | Retry.Abort =>
              let callEndEvent :=
                GenerateEnd metadata expandedPrompt EndAbort in
              returnAfter (notifyEnd options context callEndEvent) called
                (NotOk true None) w2
          | Retry.Success result _ =>
              match extractOutput result w2 with
              | (Threw e, w3) => (Threw e, called, w3)
              | (Returned extractedOutput, w3) =>
                  match processOutput options extractedOutput w3 with
                  | (Threw e, w4) => (Threw e, called, w4)
                  | (Returned processedOutput, w4) =>
                      let callEndEvent :=
                        GenerateEnd metadata expandedPrompt
                          (EndSuccess result extractedOutput
                             processedOutput) in
                      returnAfter (notifyEnd options context callEndEvent)
                        called (Ok processedOutput) w4
                  end
              end
          end
      end
  end.

(** [generate]: unwrap the safe result, throwing on abort and failure.
    An absent [error] is thrown as it is, the value [undefined]. *)
Definition generate (options : GenerateOptions)
  (context : option RunContext) (env : Environment) (w : W)
  : Completion OUTPUT * list TraceItem * W :=
  match safeGenerate options context env w with
  | (Threw e, trace, w') => (Threw e, trace, w')
  | (Returned result, trace, w') =>
      match result with
      | NotOk isAborted error =>
          if isAborted then
            (Threw (AbortError "The generation was aborted."), trace, w')
          else
            (Threw (default (OtherError "undefined") error), trace, w')
      | Ok result => (Returned result, trace, w')
      end
  end.

End Pipeline.

Arguments GenerateModel : clear implicits.
Arguments GenerateOptions : clear implicits.
Arguments SafeResult : clear implicits.
Arguments EndPayload : clear implicits.
Arguments GenerateCallEvent : clear implicits.
Arguments Callback : clear implicits.
Arguments RunContext : clear implicits.
Arguments TraceItem : clear implicits.

End Generate.

(** ** Streaming calls *)

Module Stream.

(** The run context of a call, as far as the stream functions read it. *)
Record Run : Type := { abortSignal : option AbortSignal }.

(** [FunctionOptions & { fullResponse?: boolean }] *)
Record FunctionOptions : Type := {
  functionId : option string;
  run : option Run;
  fullResponse : option bool
}.

(** [options?.fullResponse] as a condition: absent options, an absent
    field and [false] are all falsy. *)
Definition wantsFullResponse (options : option FunctionOptions) : bool :=
  default false (options ≫= fullResponse).

(** [Delta<T>]: [{ type: "delta", deltaValue }] or [{ type: "error",
    error }]. *)
Inductive Delta (T : Type) : Type :=
| DeltaValue (deltaValue : T)
| DeltaError (error : JsError).
Arguments DeltaValue {T} deltaValue.
Arguments DeltaError {T} error.

(** [AsyncIterable<T>]: an [AsyncQueue], or any other iterable, given by
    the items it yields. *)
Inductive AsyncIterable (T : Type) : Type :=
| QueueIterable (queue : AsyncQueue.t T)
| OtherIterable (yields : list T).
Arguments QueueIterable {T} queue.
Arguments OtherIterable {T} yields.

(** How the public sequence of a streaming call ends. *)
Inductive StreamEnd : Type :=
| EndOfStream
| EndAborted
| EndFailed (error : JsError).

(** The public sequence of a streaming call, as a consumer that drains it
    sees it: the items in order, and the end. *)
Record Drained (T : Type) : Type := {
  items : list T;
  ending : StreamEnd
}.
Arguments items {T} _.
Arguments ending {T} _.

(** The metadata available when the call returns (without duration and
    finish time). *)
Record ModelCallMetadata : Type := {
  callId : string;
  functionType : string;
  metaFunctionId : option string;
  startTimestamp : Z
}.

Inductive CallStatus : Type :=
| StatusSuccess
| StatusFailure (error : JsError)
| StatusAbort.

Inductive CallEvent (INPUT : Type) : Type :=
| CallStart (metadata : ModelCallMetadata) (input : INPUT)
| CallEnd (metadata : ModelCallMetadata) (input : INPUT)
    (status : CallStatus) (durationInMs : Z).
Arguments CallStart {INPUT} metadata input.
Arguments CallEnd {INPUT} metadata input status durationInMs.

Section ExecuteStreamCall.

Context {W INPUT RAW OUT S : Type}.

(** The state [S] holds the variables the callbacks close over;
    [processDelta] gets the [deltaValue] of a delta, and gives the item to
    surface, or [None] for [undefined]. *)
Variable processDelta : S -> RAW -> option OUT * S.

(** Modelled from the spec: steps 4 and 5 of section 4.5, the loop over
    the raw sequence.  An item that is [undefined] is dropped; an error
    delta ends the loop, an abort without an error for the consumer. *)
Fixpoint iterate (deltas : list (Delta RAW)) (s : S)
  : list OUT * StreamEnd * S :=
  match deltas with
  | [] => ([], EndOfStream, s)
  | DeltaError (AbortError _) :: _ => ([], EndAborted, s)
  | DeltaError e :: _ => ([], EndFailed e, s)
  | DeltaValue v :: rest =>
      let '(item, s') := processDelta s v in
      let '(more, fin, s'') := iterate rest s' in
      (match item with Some x => x :: more | None => more end, fin, s'')
  end.

Record StreamCallResult : Type := {
  value : Drained OUT;
  metadata : ModelCallMetadata
}.

(** Modelled from the spec: model-function/executeStreamCall.ts is not
    among the sources.  Section 4.5: (1) take the start time and a call
    id, (2) emit the call-start event, (3) invoke [startStream], outside
    any retry loop, (4) apply [processDelta] to every delta and drop the
    ones without a value, (5) on a stream error end the public sequence
    with that error and emit the failure end event (an abort ends the
    sequence without further items, sections 5 and 7), (6) on normal
    completion emit the success end event and invoke [onDone], (7) return
    the sequence with the metadata.  The result describes the call after
    its sequence has been drained. *)
Definition executeStreamCall (functionType : string) (input : INPUT)
  (options : option FunctionOptions)
  (startStream : option FunctionOptions -> Action W (list (Delta RAW)))
  (onDone : S -> S) (env : Environment) (s : S) (w : W)
  : Completion StreamCallResult * list (CallEvent INPUT) * S * W :=
  let metadata := {|
    callId := createId env;
    functionType := functionType;
    metaFunctionId := options ≫= functionId;
    startTimestamp := (timeOrigin env + startTime env)%Z
  |} in
  let duration := (endTime env - startTime env)%Z in
  let started := [CallStart metadata input] in
  match startStream options w with
  | (Threw e, w') =>
      (Threw e,
       started ++ [CallEnd metadata input (StatusFailure e) duration], s, w')
  | (Returned deltas, w') =>
      let '(out, fin, s') := iterate deltas s in
      let result := {|
        value := {| items := out; ending := fin |};
        metadata := metadata
      |} in
      match fin with
      | EndOfStream =>
          (Returned result,
           started ++ [CallEnd metadata input StatusSuccess duration],
           onDone s', w')
      | EndAborted =>
          (Returned result,
           started ++ [CallEnd metadata input StatusAbort duration], s', w')
      | EndFailed e =>
          (Returned result,
           started ++ [CallEnd metadata input (StatusFailure e) duration],
           s', w')
      end
  end.

End ExecuteStreamCall.

Arguments StreamCallResult : clear implicits.

End Stream.

(** ** streamText (model-function/generate-text/streamText.ts) *)

Module StreamText.

Import Stream.

(** [TextStreamingModel<PROMPT>], as far as [streamText] uses it;
    [trimWhitespace] is [model.settings.trimWhitespace]. *)
Record TextStreamingModel (W PROMPT RAW : Type) : Type := {
  trimWhitespace : option bool;
  doStreamText :
    PROMPT -> option FunctionOptions -> Action W (list (Delta RAW));
  extractTextDelta : RAW -> option jsstring
}.
Arguments trimWhitespace {W PROMPT RAW} _.
Arguments doStreamText {W PROMPT RAW} _.
Arguments extractTextDelta {W PROMPT RAW} _.

(** The variables the callbacks of [streamText] close over; [textPromise]
    is the value [textPromise] has been resolved with, if any. *)
Record Closure : Type := {
  accumulatedText : jsstring;
  isFirstDelta : bool;
  trailingWhitespace : jsstring;
  textPromise : option jsstring
}.

Definition initial : Closure := {|
  accumulatedText := [];
  isFirstDelta := true;
  trailingWhitespace := [];
  textPromise := None
|}.

Section WithModel.

Context {W PROMPT RAW : Type}.
Variable model : TextStreamingModel W PROMPT RAW.

Definition processDelta (shouldTrimWhitespace : bool) (c : Closure)
  (deltaValue : RAW) : option jsstring * Closure :=
  match extractTextDelta model deltaValue with
  | None => (None, c)
  | Some textDelta =>
      if (length textDelta =? 0)%nat then (None, c)
      else
        let '(textDelta, trailing) :=
          if shouldTrimWhitespace then
            let textDelta :=
              if isFirstDelta c
              then (* remove leading whitespace: *)
                trimStart textDelta
              else (* restore trailing whitespace from previous chunk: *)
                trailingWhitespace c ++ textDelta in
            (* trim trailing whitespace and store it for the next chunk: *)
            let trailingWhitespaceMatch := matchTrailingWhitespace textDelta in
            (trimEnd textDelta, default [] trailingWhitespaceMatch)
          else (textDelta, trailingWhitespace c) in
        (Some textDelta,
         {| accumulatedText := accumulatedText c ++ textDelta;
            isFirstDelta := false;
            trailingWhitespace := trailing;
            textPromise := textPromise c |})
  end.

(** [onDone: () => resolveText(accumulatedText)]; resolving a promise
    that is already resolved changes nothing. *)
Definition onDone (c : Closure) : Closure :=
  {| accumulatedText := accumulatedText c;
     isFirstDelta := isFirstDelta c;
     trailingWhitespace := trailingWhitespace c;
     textPromise :=
       match textPromise c with
       | Some t => Some t
       | None => Some (accumulatedText c)
       end |}.

(** What [streamText] resolves to: the bare stream, or the object
    [{ textStream, text, metadata }], [text] being the state of the promise
    once [textStream] has been drained. *)
Inductive StreamTextResult : Type :=
| TextStream (textStream : Drained jsstring)
| TextFullResponse (textStream : Drained jsstring) (text : option jsstring)
    (metadata : ModelCallMetadata).

Definition streamText (prompt : PROMPT) (options : option FunctionOptions)
  (env : Environment) (w : W)
  : Completion StreamTextResult * list (CallEvent PROMPT) * W :=
  let shouldTrimWhitespace := default true (trimWhitespace model) in
  match
    executeStreamCall (processDelta shouldTrimWhitespace)
      "stream-text" prompt options
      (fun options => doStreamText model prompt options)
      onDone env initial w
  with
  | (Threw e, events, _, w') => (Threw e, events, w')
  | (Returned fullResponse, events, c, w') =>
      (Returned
         (if wantsFullResponse options
          then TextFullResponse (value fullResponse) (textPromise c)
                 (metadata fullResponse)
          else TextStream (value fullResponse)),
       events, w')
  end.

End WithModel.

(** The stream of a result, whatever its shape. *)
Definition streamOf (result : StreamTextResult) : Drained jsstring :=
  match result with
  | TextStream textStream => textStream
  | TextFullResponse textStream _ _ => textStream
  end.

End StreamText.

(** ** streamSpeech (model-function/generate-speech/streamSpeech.ts) *)

Module StreamSpeech.

Import Stream.

(** [Buffer]: bytes. *)
Abbreviation Buffer := (list N).

Record StreamingSpeechGenerationModel (W : Type) : Type := {
  doGenerateSpeechStreamDuplex :
    AsyncIterable jsstring -> option FunctionOptions ->
    Action W (list (Delta Buffer))
}.
Arguments doGenerateSpeechStreamDuplex {W} _.

(** [AsyncIterable<string> | string] *)
Inductive TextInput : Type :=
| TextString (text : jsstring)
| TextIterable (text : AsyncIterable jsstring).

(** The [textStream] that [streamSpeech] makes of its [text] argument. *)
Definition textStreamOf (text : TextInput) : AsyncIterable jsstring :=
  match text with
  | TextString text =>
      (* simulate a stream with a single value for a string input: *)
      let queue := AsyncQueue.empty in
      let queue := snd (AsyncQueue.push queue text) in
      let queue := AsyncQueue.close queue in
      QueueIterable queue
  | TextIterable text => text
  end.

Inductive StreamSpeechResult : Type :=
| SpeechStream (speechStream : Drained Buffer)
| SpeechFullResponse (speechStream : Drained Buffer)
    (metadata : ModelCallMetadata).

Section WithModel.

Context {W : Type}.
Variable model : StreamingSpeechGenerationModel W.

Definition streamSpeech (text : TextInput) (options : option FunctionOptions)
  (env : Environment) (w : W)
  : Completion StreamSpeechResult * list (CallEvent TextInput) * W :=
  let textStream := textStreamOf text in
  match
    executeStreamCall (fun (s : unit) (deltaValue : Buffer) => (Some deltaValue, s))
      "stream-speech" text options
      (fun options => doGenerateSpeechStreamDuplex model textStream options)
      (fun s => s) env tt w
  with
  | (Threw e, events, _, w') => (Threw e, events, w')
  | (Returned fullResponse, events, _, w') =>
      (Returned
         (if wantsFullResponse options
          then SpeechFullResponse (value fullResponse) (metadata fullResponse)
          else SpeechStream (value fullResponse)),
       events, w')
  end.

End WithModel.

End StreamSpeech.

(** ** The llama.cpp completion model *)

Module LlamaCpp.

Import Stream.

(** *** The network *)

(** A JSON value, as a request body carries it. *)
#[warnings="-register-all"]
Inductive Json : Type :=
| JNull
| JBool (b : bool)
| JNumber (x : Q)
| JString (s : jsstring)
| JArray (elements : list Json)
| JObject (fields : list (string * Json)).

Record Request : Type := {
  url : jsstring;
  requestHeaders : gmap string jsstring;
  requestBody : Json
}.

(** [LlamaCppTextStreamChunk], as far as the queue code reads it. *)
Record LlamaCppTextStreamChunk : Type := {
  content : jsstring;
  stop : bool
}.

(** One server-sent event, by what [parseJSON] with the chunk schema makes
    of its [data]: the parsed chunk, or the error it throws. *)
Inductive SseEvent : Type :=
| ValidEvent (eventData : LlamaCppTextStreamChunk)
| InvalidEvent (error : JsError).

(** The body of a successful streaming response: either
    [parseEventSourceStream] rejects, or it gives the events, after which
    the stream ends or reading it throws. *)
Inductive ResponseBody : Type :=
| BodyUnreadable (error : JsError)
| BodyEvents (events : list SseEvent) (failure : option JsError).

Record Response : Type := { body : ResponseBody }.

(** What the server does with one request: the connection fails (transport
    failure or a status that [failedResponseHandler] turns into an error),
    or it is established. *)
Inductive Exchange : Type :=
| ConnectionFailed (error : JsError)
| ConnectionEstablished (response : Response).

(** The server as the client sees it: the exchanges to come, one for each
    request, and the requests sent so far. *)
Record Network : Type := {
  exchanges : list Exchange;
  requests : list Request
}.

Section PostToApi.

Context {T : Type}.

(** Modelled from the spec: core/api/postToApi.ts is not among the sources.
    One HTTP request: an aborted signal ends the call with an abort; a failed
    connection throws its error; on an established connection the result is
    that of the successful-response handler. *)
Definition postJsonToApi (url : jsstring) (headers : gmap string jsstring)
  (body : Json) (successfulResponseHandler : Response -> Completion T)
  (abortSignal : option AbortSignal) : Action Network T :=
  fun net =>
    if default false (aborted <$> abortSignal) then
      (Threw (AbortError "The operation was aborted."), net)
    else
      let sent :=
        requests net
        ++ [{| url := url; requestHeaders := headers; requestBody := body |}] in
      match exchanges net with
      | [] =>
          (Threw (ApiCallError true "no response"),
           {| exchanges := []; requests := sent |})
      | ConnectionFailed e :: rest =>
          (Threw e, {| exchanges := rest; requests := sent |})
      | ConnectionEstablished response :: rest =>
          (successfulResponseHandler response,
           {| exchanges := rest; requests := sent |})
      end.

End PostToApi.

(** *** Values and objects *)

#[warnings="-register-all"]
Inductive JsValue : Type :=
| VUndefined
| VNull
| VBool (b : bool)
| VNumber (x : Q)
| VString (s : jsstring)
| VArray (elements : list JsValue)
| VApi (api : Api.BaseUrlApiConfiguration Network).

(** The store of settings objects: an object is the finite map of its own
    properties; a property may be present with the value [undefined]. *)
Abbreviation JsObject := (gmap string JsValue).
Abbreviation Heap := (gmap positive JsObject).

(** The object literal [{}]. *)
Definition newObject (h : Heap) : positive * Heap :=
  let l := fresh (dom h) in (l, <[l := ∅]> h).

(** [Object.assign(target, ...sources)]: the own properties of every
    source are written to the target, later sources over earlier ones. *)
Definition objectAssign (target : positive) (sources : list positive)
  (h : Heap) : Heap :=
  foldl
    (fun h source =>
       <[target := default ∅ (h !! source) ∪ default ∅ (h !! target)]> h)
    h sources.

(** [JSON.stringify] of a property value; [undefined] has no JSON and the
    property is left out.  A configuration object is never part of a
    body. *)
Fixpoint toJson (v : JsValue) : option Json :=
  match v with
  | VUndefined => None
  | VNull => Some JNull
  | VBool b => Some (JBool b)
  | VNumber x => Some (JNumber x)
  | VString s => Some (JString s)
  | VArray elements =>
      Some (JArray (map (fun e => default JNull (toJson e)) elements))
  | VApi _ => Some (JObject [])
  end.

(** The JSON of an object literal: the properties with a value. *)
Definition jsonObject (properties : list (string * option Json)) : Json :=
  JObject (omap (fun '(k, v) => pair k <$> v) properties).

(** *** The model *)

Record LlamaCppCompletionPrompt : Type := {
  text : jsstring;
  images : option (list (N * jsstring))
}.

Record LlamaCppTokenizer : Type := {
  tokenizerApi : option (Api.BaseUrlApiConfiguration Network)
}.

(** A model object: the reference to its settings object, and its
    tokenizer. *)
Record LlamaCppCompletionModel : Type := {
  settings : positive;
  tokenizer : LlamaCppTokenizer
}.

(** [this.settings.<key>] *)
Definition setting (h : Heap) (this : positive) (key : string) : JsValue :=
  default VUndefined (default ∅ (h !! this) !! key).

(** [this.settings.api] *)
Definition settingsApi (h : Heap) (this : positive)
  : option (Api.BaseUrlApiConfiguration Network) :=
  match setting h this "api" with
  | VApi api => Some api
  | _ => None
  end.

(** [new LlamaCppCompletionModel(settings)].  AbstractModel.ts is not among
    the sources; its constructor is taken to keep the reference to the
    settings object it is given, which is what the reads of [this.settings]
    in the class rely on. *)
Definition newLlamaCppCompletionModel (settings : positive) (h : Heap)
  : LlamaCppCompletionModel :=
  {| settings := settings;
     tokenizer := {| tokenizerApi := settingsApi h settings |} |}.

(** [withSettings] *)
Definition withSettings (this : LlamaCppCompletionModel)
  (additionalSettings : positive) (h : Heap)
  : LlamaCppCompletionModel * Heap :=
  let '(target, h) := newObject h in
  let h := objectAssign target [settings this; additionalSettings] h in
  (newLlamaCppCompletionModel target h, h).

(** [LlamaCppCompletionResponseFormatType<T>] *)
Record ResponseFormat (T : Type) : Type := {
  stream : bool;
  handler : Response -> Completion T
}.
Arguments stream {T} _.
Arguments handler {T} _.

(** The body properties that are read from the settings, as pairs of the
    property sent and the setting read. *)
Definition settingsProperties : list (string * string) :=
  [ ("temperature", "temperature"); ("top_k", "topK"); ("top_p", "topP");
    ("min_p", "minP"); ("n_predict", "maxGenerationTokens");
    ("n_keep", "nKeep"); ("stop", "stopSequences"); ("tfs_z", "tfsZ");
    ("typical_p", "typicalP"); ("repeat_penalty", "repeatPenalty");
    ("repeat_last_n", "repeatLastN"); ("penalize_nl", "penalizeNl");
    ("presence_penalty", "presencePenalty");
    ("frequency_penalty", "frequencyPenalty");
    ("penalty_prompt", "penaltyPrompt"); ("mirostat", "mirostat");
    ("mirostat_tau", "mirostatTau"); ("mirostat_eta", "mirostatEta");
    ("grammar", "grammar"); ("seed", "seed"); ("ignore_eos", "ignoreEos");
    ("logit_bias", "logitBias"); ("n_probs", "nProbs");
    ("cache_prompt", "cachePrompt"); ("slot_id", "slotId") ]%string.

Definition imageData (prompt : LlamaCppCompletionPrompt) : option Json :=
  match images prompt with
  | Some entries =>
      Some (JArray
              (map (fun '(id, data) =>
                      JObject [("id", JNumber (inject_Z (Z.of_N id)));
                               ("data", JString data)]%string)
                 entries))
  | None => None
  end.

Definition requestBodyOf (h : Heap) (this : LlamaCppCompletionModel)
  (prompt : LlamaCppCompletionPrompt) (stream : bool) : Json :=
  jsonObject
    ([("stream", Some (JBool stream));
      ("prompt", Some (JString (text prompt)));
      ("image_data", imageData prompt)]%string
     ++ map (fun '(property, key) =>
               (property, toJson (setting h (settings this) key)))
          settingsProperties).

Section CallApi.

Context {T : Type}.

(** [new LlamaCppApiConfiguration()], declared outside the sources. *)
Variable defaultApiConfiguration : Api.BaseUrlApiConfiguration Network.

(** The [call] that [callAPI] hands to [callWithRetryAndThrottle]. *)
Definition completionRequest (h : Heap) (this : LlamaCppCompletionModel)
  (prompt : LlamaCppCompletionPrompt) (responseFormat : ResponseFormat T)
  (options : option FunctionOptions) : Action Network T :=
  let api :=
    default defaultApiConfiguration (settingsApi h (settings this)) in
  let abortSignal := (options ≫= run) ≫= abortSignal in
  postJsonToApi (Api.assembleUrl api (lit "/completion")) (Api.headers api)
    (requestBodyOf h this prompt (stream responseFormat))
    (handler responseFormat) abortSignal.

Definition callAPI (h : Heap) (this : LlamaCppCompletionModel)
  (prompt : LlamaCppCompletionPrompt) (responseFormat : ResponseFormat T)
  (options : option FunctionOptions) : Action Network T :=
  let api :=
    default defaultApiConfiguration (settingsApi h (settings this)) in
  Retry.callWithRetryAndThrottle (Api.retry api) (Api.throttle api)
    (completionRequest h this prompt responseFormat options).

End CallApi.

(** *** The delta queue of a streaming response *)

(** A push that the closed queue rejects either fails silently or raises;
    the spec leaves both open, and the code below is modelled for both. *)
Inductive RejectedPush : Type := FailsSilently | Raises.

Section DeltaQueue.

Variable rejected : RejectedPush.

(** [queue.push(item)] as a statement that may throw. *)
Definition pushTo {A : Type} (queue : AsyncQueue.t A) (item : A)
  : Completion unit * AsyncQueue.t A :=
  match AsyncQueue.push queue item with
  | (true, queue') => (Returned tt, queue')
  | (false, queue') =>
      match rejected with
      | FailsSilently => (Returned tt, queue')
      | Raises => (Threw (OtherError "push on a closed queue"), queue')
      end
  end.

(** The body of the [try] block: [for await (const event of events)]. *)
Fixpoint forAwaitEvents (events : list SseEvent) (failure : option JsError)
  (queue : AsyncQueue.t (Delta LlamaCppTextStreamChunk))
  : Completion unit * AsyncQueue.t (Delta LlamaCppTextStreamChunk) :=
  match events with
  | [] =>
      match failure with
      | Some error => (Threw error, queue)
      | None => (Returned tt, queue)
      end
  | event :: events' =>
      match event with
      | InvalidEvent error => (Threw error, queue)
      | ValidEvent eventData =>
          match pushTo queue (DeltaValue eventData) with
          | (Threw error, queue) => (Threw error, queue)
          | (Returned _, queue) =>
              let queue :=
                if stop eventData then AsyncQueue.close queue else queue in
              forAwaitEvents events' failure queue
          end
      end
  end.

(** [queue.push({ type: "error", error }); queue.close();]: when the push
    throws, the close is not reached. *)
Definition pushErrorAndClose (error : JsError)
  (queue : AsyncQueue.t (Delta LlamaCppTextStreamChunk))
  : Completion unit * AsyncQueue.t (Delta LlamaCppTextStreamChunk) :=
  match pushTo queue (DeltaError error) with
  | (Threw error', queue) => (Threw error', queue)
  | (Returned _, queue) => (Returned tt, AsyncQueue.close queue)
  end.

(** [createLlamaCppFullDeltaIterableQueue]: the queue is returned at once
    and is filled while the stream is read; the result is the queue once
    the stream has been read to its end.  A rejection of the promise of
    [parseEventSourceStream], or of the [then] callback, runs the [catch]
    callback; a throw in there is an unhandled rejection and leaves the
    queue as it is. *)
Definition createLlamaCppFullDeltaIterableQueue (stream : ResponseBody)
  : AsyncQueue.t (Delta LlamaCppTextStreamChunk) :=
  let queue := AsyncQueue.empty in
  match stream with
  | BodyUnreadable error => snd (pushErrorAndClose error queue)
  | BodyEvents events failure =>
      match forAwaitEvents events failure queue with
      | (Returned _, queue) => queue
      | (Threw error, queue) =>
          match pushErrorAndClose error queue with
          | (Returned _, queue) => queue
          | (Threw error', queue) => snd (pushErrorAndClose error' queue)
          end
      end
  end.

(** [LlamaCppCompletionResponseFormat.deltaIterable] *)
Definition deltaIterable
  : ResponseFormat (AsyncQueue.t (Delta LlamaCppTextStreamChunk)) :=
  {| stream := true;
     handler := fun response =>
       Returned (createLlamaCppFullDeltaIterableQueue (body response)) |}.

Variable defaultApiConfiguration : Api.BaseUrlApiConfiguration Network.

(** [doStreamText] *)
Definition doStreamText (h : Heap) (this : LlamaCppCompletionModel)
  (prompt : LlamaCppCompletionPrompt) (options : option FunctionOptions)
  : Action Network (AsyncQueue.t (Delta LlamaCppTextStreamChunk)) :=
  callAPI defaultApiConfiguration h this prompt deltaIterable options.

(** The request that a streaming call sends. *)
Definition streamingRequest (h : Heap) (this : LlamaCppCompletionModel)
  (prompt : LlamaCppCompletionPrompt) : Request :=
  let api :=
    default defaultApiConfiguration (settingsApi h (settings this)) in
  {| url := Api.assembleUrl api (lit "/completion");
     requestHeaders := Api.headers api;
     requestBody := requestBodyOf h this prompt true |}.

(** [extractTextDelta] *)
Definition extractTextDelta (delta : LlamaCppTextStreamChunk)
  : option jsstring :=
  Some (content delta).

End DeltaQueue.

(** The error that ends the reading of a body, with the chunks read before
    it: the first event that does not parse, or the failure of the read
    after the last event. *)
Fixpoint streamError (events : list SseEvent) (failure : option JsError)
  : option (list LlamaCppTextStreamChunk * JsError) :=
  match events with
  | [] =>
      match failure with
      | Some error => Some ([], error)
      | None => None
      end
  | InvalidEvent error :: _ => Some ([], error)
  | ValidEvent eventData :: events' =>
      match streamError events' failure with
      | Some (chunks, error) => Some (eventData :: chunks, error)
      | None => None
      end
  end.

End LlamaCpp.

(** ** Vocabulary of the properties *)

Module Props.

Import Stream.

(** *** assembleUrl *)

(** Everything of an assembled URL before the base path. *)
Definition origin (parts : Api.UrlParts) : jsstring :=
  Api.protocol parts ++ lit "://" ++ Api.host parts ++ lit ":"
    ++ Api.port parts.

Definition isSlash (c : N) : bool := c =? slash.

(** A path without its leading slashes, a base path without its trailing
    slashes. *)
Fixpoint stripLeadingSlashes (s : jsstring) : jsstring :=
  match s with
  | [] => []
  | c :: s' => if isSlash c then stripLeadingSlashes s' else s
  end.

Definition stripTrailingSlashes (s : jsstring) : jsstring :=
  rev (stripLeadingSlashes (rev s)).

(** The assembled URL has exactly one slash between what the base path
    and the path are without the slashes at the join. *)
Definition oneSlashAtJoin (parts : Api.UrlParts) (path : jsstring) : Prop :=
  Api.assembleUrlParts parts path
  = origin parts ++ stripTrailingSlashes (Api.path parts) ++ lit "/"
      ++ stripLeadingSlashes path.

Definition withPath (parts : Api.UrlParts) (path : jsstring) : Api.UrlParts :=
  {| Api.protocol := Api.protocol parts;
     Api.host := Api.host parts;
     Api.port := Api.port parts;
     Api.path := path |}.

(** *** streamText *)

Section Fragments.

Context {W PROMPT RAW : Type}.
Variable model : StreamText.TextStreamingModel W PROMPT RAW.

(** The text fragments that [processDelta] works on: what
    [extractTextDelta] gives for the raw values, without the absent and the
    empty ones. *)
Definition fragments (raws : list RAW) : list jsstring :=
  omap (fun raw =>
          match StreamText.extractTextDelta model raw with
          | Some textDelta =>
              if (length textDelta =? 0)%nat then None else Some textDelta
          | None => None
          end) raws.

(** The closure and the public fragments after a run of value deltas. *)
Definition afterDeltas (shouldTrimWhitespace : bool) (raws : list RAW)
  : list jsstring * StreamEnd * StreamText.Closure :=
  iterate (StreamText.processDelta model shouldTrimWhitespace)
    (map DeltaValue raws) StreamText.initial.

Definition emitted (shouldTrimWhitespace : bool) (raws : list RAW)
  : list jsstring :=
  fst (fst (afterDeltas shouldTrimWhitespace raws)).

Definition withheld (shouldTrimWhitespace : bool) (raws : list RAW)
  : jsstring :=
  StreamText.trailingWhitespace (snd (afterDeltas shouldTrimWhitespace raws)).

End Fragments.

(** The fragments put together, without the leading white space of the
    first one. *)
Definition joined (fragments : list jsstring) : jsstring :=
  match fragments with
  | [] => []
  | first :: others => trimStart first ++ concat others
  end.

(** What is still to come out of a closure when the fragments [frags] are
    processed from it. *)
Definition pending (c : StreamText.Closure) (frags : list jsstring)
  : jsstring :=
  if StreamText.isFirstDelta c then joined frags
  else StreamText.trailingWhitespace c ++ concat frags.

(** *** The generate pipeline *)

Section Traces.

Context {PROMPT_TYPE RAW_OUTPUT GENERATED_OUTPUT OUTPUT : Type}.

Abbreviation Event :=
  (Generate.GenerateCallEvent PROMPT_TYPE RAW_OUTPUT GENERATED_OUTPUT OUTPUT).
Abbreviation Item :=
  (Generate.TraceItem PROMPT_TYPE RAW_OUTPUT GENERATED_OUTPUT OUTPUT).

(** The start events and the end events an observer has received. *)
Definition startEvents (observer : Generate.Observer) (trace : list Item)
  : list Event :=
  omap (fun item =>
          match item with
          | Generate.Notified o (Generate.GenerateStart m i as e) =>
              match observer, o with
              | Generate.OptionsObserver, Generate.OptionsObserver
              | Generate.ContextObserver, Generate.ContextObserver => Some e
              | _, _ => None
              end
          | _ => None
          end) trace.

Definition endEvents (observer : Generate.Observer) (trace : list Item)
  : list Event :=
  omap (fun item =>
          match item with
          | Generate.Notified o (Generate.GenerateEnd m i p as e) =>
              match observer, o with
              | Generate.OptionsObserver, Generate.OptionsObserver
              | Generate.ContextObserver, Generate.ContextObserver => Some e
              | _, _ => None
              end
          | _ => None
          end) trace.

(** The status of an end event agrees with the result of the call. *)
Definition statusAgrees
  (payload : Generate.EndPayload RAW_OUTPUT GENERATED_OUTPUT OUTPUT)
  (result : Generate.SafeResult OUTPUT) : Prop :=
  match result with
  | Generate.Ok _ => Generate.status payload = "success"%string
  | Generate.NotOk true _ => Generate.status payload = "abort"%string
  | Generate.NotOk false _ => Generate.status payload = "failure"%string
  end.

Abbreviation Callback :=
  (Generate.Callback PROMPT_TYPE RAW_OUTPUT GENERATED_OUTPUT OUTPUT).
Abbreviation RunContext :=
  (Generate.RunContext PROMPT_TYPE RAW_OUTPUT GENERATED_OUTPUT OUTPUT).

(** Whether a callback is present. *)
Definition registered (callback : option Callback) : bool :=
  match callback with Some _ => true | None => false end.

(** The event as handed to an observer, if its callback is present. *)
Definition handedTo (callback : option Callback)
  (observer : Generate.Observer) (event : Event) : list Item :=
  if registered callback then [Generate.Notified observer event] else [].

(** The start event and the end event, handed to the observers that are
    registered: first the one of the options, then the one of the
    context. *)
Definition startDeliveries {W INPUT : Type}
  (options : Generate.GenerateOptions W INPUT PROMPT_TYPE RAW_OUTPUT
               GENERATED_OUTPUT OUTPUT)
  (context : option RunContext) (event : Event) : list Item :=
  handedTo (Generate.onCallStart options) Generate.OptionsObserver event
  ++ handedTo (context ≫= Generate.contextOnCallStart)
       Generate.ContextObserver event.

Definition endDeliveries {W INPUT : Type}
  (options : Generate.GenerateOptions W INPUT PROMPT_TYPE RAW_OUTPUT
               GENERATED_OUTPUT OUTPUT)
  (context : option RunContext) (event : Event) : list Item :=
  handedTo (Generate.onCallEnd options) Generate.OptionsObserver event
  ++ handedTo (context ≫= Generate.contextOnCallEnd)
       Generate.ContextObserver event.

(** A callback that returns on every event, and a call all of whose
    registered callbacks do. *)
Definition returns (callback : option Callback) : Prop :=
  forall call event, callback = Some call -> call event = Returned tt.

Definition callbacksReturn {W INPUT : Type}
  (options : Generate.GenerateOptions W INPUT PROMPT_TYPE RAW_OUTPUT
               GENERATED_OUTPUT OUTPUT)
  (context : option RunContext) : Prop :=
  returns (Generate.onCallStart options)
  /\ returns (context ≫= Generate.contextOnCallStart)
  /\ returns (Generate.onCallEnd options)
  /\ returns (context ≫= Generate.contextOnCallEnd).

(** The trace of a call with one start event before the retried model call
    and one end event after it, each handed to the observers that are
    registered, the status of the end event agreeing with the result. *)
Definition bracketed {W INPUT : Type}
  (options : Generate.GenerateOptions W INPUT PROMPT_TYPE RAW_OUTPUT
               GENERATED_OUTPUT OUTPUT)
  (context : option RunContext) (trace : list Item)
  (result : Generate.SafeResult OUTPUT) : Prop :=
  exists startMetadata metadata expandedPrompt payload,
    trace
    = startDeliveries options context
        (Generate.GenerateStart startMetadata expandedPrompt)
      ++ [Generate.RetryCall]
      ++ endDeliveries options context
           (Generate.GenerateEnd metadata expandedPrompt payload)
    /\ Generate.startMetadata metadata = startMetadata
    /\ statusAgrees payload result.

End Traces.

End Props.

(** ** Prompt templates and event settings of the llama.cpp model *)

Module LlamaCppTemplates.

Import LlamaCpp.

(** The elements that iterating a string yields: its code points, a
    surrogate pair being one element. *)
Fixpoint codePoints (s : jsstring) : list jsstring :=
  match s with
  | [] => []
  | c :: s' =>
      match s' with
      | d :: s'' =>
          if (55296 <=? c) && (c <=? 56319) && (56320 <=? d) && (d <=? 57343)
          then [c; d] :: codePoints s''
          else [c] :: codePoints s'
      | [] => [[c]]
      end
  end.

(** [[...(v ?? [])]]: the elements of an array, none for [undefined] and
    [null], the characters of a string; any other value is not iterable. *)
Definition spreadOrEmpty (v : JsValue) : Completion (list JsValue) :=
  match v with
  | VUndefined | VNull => Returned []
  | VArray elements => Returned elements
  | VString s => Returned (map VString (codePoints s))
  | VBool _ | VNumber _ | VApi _ =>
      Threw (OtherError "TypeError: value is not iterable")
  end.

(** [TextGenerationPromptTemplate<INPUT_PROMPT, LlamaCppCompletionPrompt>] *)
Record TextGenerationPromptTemplate (INPUT_PROMPT : Type) : Type := {
  format : INPUT_PROMPT -> LlamaCppCompletionPrompt;
  stopSequences : list jsstring
}.
Arguments format {INPUT_PROMPT} _.
Arguments stopSequences {INPUT_PROMPT} _.

(** What [new PromptTemplateTextStreamingModel({ model, promptTemplate })]
    is given; the class itself is not among the sources. *)
Record PromptTemplateTextStreamingModel (INPUT_PROMPT : Type) : Type := {
  model : LlamaCppCompletionModel;
  promptTemplate : TextGenerationPromptTemplate INPUT_PROMPT
}.
Arguments model {INPUT_PROMPT} _.
Arguments promptTemplate {INPUT_PROMPT} _.

(** The object literal [{ stopSequences: value }]. *)
Definition newStopSequencesObject (value : JsValue) (h : Heap)
  : positive * Heap :=
  let l := fresh (dom h) in
  (l, <[l := {[ "stopSequences"%string := value ]}]> h).

(** [withPromptTemplate] *)
Definition withPromptTemplate {INPUT_PROMPT : Type}
  (this : LlamaCppCompletionModel)
  (promptTemplate : TextGenerationPromptTemplate INPUT_PROMPT) (h : Heap)
  : Completion (PromptTemplateTextStreamingModel INPUT_PROMPT) * Heap :=
  match spreadOrEmpty (setting h (settings this) "stopSequences") with
  | Threw e => (Threw e, h)
  | Returned existing =>
      let '(additionalSettings, h) :=
        newStopSequencesObject
          (VArray (existing ++ map VString (stopSequences promptTemplate))) h in
      let '(model, h) := withSettings this additionalSettings h in
      (Returned {| model := model; promptTemplate := promptTemplate |}, h)
  end.

(** [withTextPrompt] *)
Definition withTextPrompt (this : LlamaCppCompletionModel) (h : Heap)
  : Completion (PromptTemplateTextStreamingModel jsstring) * Heap :=
  withPromptTemplate this
    {| format := fun prompt => {| text := prompt; images := None |};
       stopSequences := [] |} h.

(** The properties that [settingsForEvent] adds to
    [textGenerationModelProperties]. *)
Definition ownEventSettingProperties : list string :=
  [ "contextWindowSize"; "temperature"; "topK"; "topP"; "minP"; "nKeep";
    "tfsZ"; "typicalP"; "repeatPenalty"; "repeatLastN"; "penalizeNl";
    "presencePenalty"; "frequencyPenalty"; "penaltyPrompt"; "mirostat";
    "mirostatTau"; "mirostatEta"; "grammar"; "seed"; "ignoreEos";
    "logitBias"; "nProbs"; "cachePrompt"; "slotId" ]%string.

(** [get settingsForEvent()]; [textGenerationModelProperties] is declared
    outside the sources. *)
Definition settingsForEvent (textGenerationModelProperties : list string)
  (h : Heap) (this : LlamaCppCompletionModel) : JsObject :=
  let eventSettingProperties :=
    textGenerationModelProperties ++ ownEventSettingProperties in
  filter (fun entry => entry.1 ∈ eventSettingProperties)
    (default ∅ (h !! settings this)).

(** The settings that the request body reads. *)
Definition requestSettings : list string := map snd settingsProperties.

End LlamaCppTemplates.

(** ** Tools (useToolOrGenerateText) *)

Module Tools.

Section WithTools.

Context {W PROMPT PARAMETERS RESULT SCHEMA : Type}.

(** [Tool<NAME, INPUT, OUTPUT>] *)
Record Tool : Type := {
  name : string;
  description : string;
  inputSchema : SCHEMA;
  execute : PARAMETERS -> Action W RESULT
}.

(** What [generateJsonOrText] is told about a tool. *)
Record SchemaDefinition : Type := {
  definitionName : string;
  definitionDescription : string;
  definitionSchema : SCHEMA
}.

(** What [generateJsonOrText] resolves to: [{ schema: null, value: null,
    text }] or [{ schema, value, text }]. *)
Inductive ModelResponse : Type :=
| TextResponse (text : jsstring)
| JsonResponse (schema : string) (value : PARAMETERS)
    (text : option jsstring).

(** What [useToolOrGenerateText] resolves to. *)
Inductive ToolOutput : Type :=
| NoTool (text : jsstring)
| ToolRun (tool : string) (parameters : PARAMETERS) (result : RESULT)
    (text : option jsstring).

(** [generateJsonOrText], which is not among the sources. *)
Variable generateJsonOrText :
  list SchemaDefinition -> PROMPT -> option Stream.FunctionOptions ->
  Action W ModelResponse.

(** [tools.find((tool) => tool.name === schema)] *)
Definition findTool (tools : list Tool) (schema : string) : option Tool :=
  List.find (fun tool => String.eqb (name tool) schema) tools.

(** [tools.map((tool) => ({ name, description, schema }))] *)
Definition schemaDefinitions (tools : list Tool) : list SchemaDefinition :=
  map (fun tool =>
         {| definitionName := name tool;
            definitionDescription := description tool;
            definitionSchema := inputSchema tool |}) tools.

(** [NoSuchToolError] is thrown like any other error: the caller cannot
    tell it from one that the model call or a tool throws. *)
Definition useToolOrGenerateText (tools : list Tool)
  (prompt : list Tool -> PROMPT) (options : option Stream.FunctionOptions)
  (w : W) : Completion ToolOutput * W :=
  let expandedPrompt := prompt tools in
  match
    generateJsonOrText (schemaDefinitions tools) expandedPrompt options w
  with
  | (Threw e, w1) => (Threw e, w1)
  | (Returned modelResponse, w1) =>
      match modelResponse with
      | TextResponse text => (Returned (NoTool text), w1)
      | JsonResponse schema toolParameters text =>
          match findTool tools schema with
          | None => (Threw (NoSuchToolError schema), w1)
          | Some tool =>
              match execute tool toolParameters w1 with
              | (Threw e, w2) => (Threw e, w2)
              | (Returned result, w2) =>
                  (Returned (ToolRun schema toolParameters result text), w2)
              end
          end
      end
  end.

End WithTools.

Arguments Tool : clear implicits.
Arguments ModelResponse : clear implicits.
Arguments ToolOutput : clear implicits.
Arguments SchemaDefinition : clear implicits.

End Tools.

(** ** The output handlers of a generate call *)

Module GenerateMore.

(** The options of a generate call with other output handlers. *)
Definition withOutputHandlers
  {W INPUT PROMPT_TYPE RAW_OUTPUT GENERATED_OUTPUT OUTPUT : Type}
  (options : Generate.GenerateOptions W INPUT PROMPT_TYPE RAW_OUTPUT
               GENERATED_OUTPUT OUTPUT)
  (extractOutput : option (RAW_OUTPUT -> Action W GENERATED_OUTPUT))
  (processOutput : GENERATED_OUTPUT -> Action W OUTPUT)
  : Generate.GenerateOptions W INPUT PROMPT_TYPE RAW_OUTPUT
      GENERATED_OUTPUT OUTPUT :=
  {| Generate.optFunctionId := Generate.optFunctionId options;
     Generate.prompt := Generate.prompt options;
     Generate.input := Generate.input options;
     Generate.optModel := Generate.optModel options;
     Generate.processOutput := processOutput;
     Generate.extractOutput := extractOutput;
     Generate.retry := Generate.retry options;
     Generate.onCallStart := Generate.onCallStart options;
     Generate.onCallEnd := Generate.onCallEnd options |}.

End GenerateMore.

(** ** Vocabulary of the further properties *)

Module MoreProps.

(** The values of a raw sequence before its first error delta. *)
Fixpoint valuesBeforeError {T : Type} (deltas : list (Stream.Delta T))
  : list T :=
  match deltas with
  | Stream.DeltaValue v :: rest => v :: valuesBeforeError rest
  | _ => []
  end.

(** How a raw sequence ends: with its first error delta, if there is one;
    an abort is no error for the consumer. *)
Fixpoint endingOf {T : Type} (deltas : list (Stream.Delta T))
  : Stream.StreamEnd :=
  match deltas with
  | [] => Stream.EndOfStream
  | Stream.DeltaValue _ :: rest => endingOf rest
  | Stream.DeltaError (AbortError _) :: _ => Stream.EndAborted
  | Stream.DeltaError e :: _ => Stream.EndFailed e
  end.

(** The metadata of a stream call of the given type. *)
Definition metadataOf (functionType : string)
  (options : option Stream.FunctionOptions) (env : Environment)
  : Stream.ModelCallMetadata :=
  {| Stream.callId := createId env;
     Stream.functionType := functionType;
     Stream.metaFunctionId := options ≫= Stream.functionId;
     Stream.startTimestamp := (timeOrigin env + startTime env)%Z |}.

(** What a consumer that drains the stream of [streamText] sees for the
    raw deltas of the model: the processed fragments in order, and the
    end. *)
Definition textStreamFor {W PROMPT RAW : Type}
  (model : StreamText.TextStreamingModel W PROMPT RAW)
  (deltas : list (Stream.Delta RAW)) : Stream.Drained jsstring :=
  let '(fragments, fin, _) :=
    Stream.iterate
      (StreamText.processDelta model
         (default true (StreamText.trimWhitespace model)))
      deltas StreamText.initial in
  {| Stream.items := fragments; Stream.ending := fin |}.

(** The text that belongs to a drained text stream: the concatenation of
    its fragments, once the stream has come to its normal end. *)
Definition textFor (textStream : Stream.Drained jsstring)
  : option jsstring :=
  match Stream.ending textStream with
  | Stream.EndOfStream => Some (concat (Stream.items textStream))
  | _ => None
  end.

(** What a consumer that drains the stream of [streamSpeech] sees for the
    raw deltas of the model. *)
Definition speechStreamFor (deltas : list (Stream.Delta StreamSpeech.Buffer))
  : Stream.Drained StreamSpeech.Buffer :=
  {| Stream.items := valuesBeforeError deltas;
     Stream.ending := endingOf deltas |}.

(** The stream of a [streamSpeech] result, whatever its shape. *)
Definition speechOf (result : StreamSpeech.StreamSpeechResult)
  : Stream.Drained StreamSpeech.Buffer :=
  match result with
  | StreamSpeech.SpeechStream speechStream => speechStream
  | StreamSpeech.SpeechFullResponse speechStream _ => speechStream
  end.

End MoreProps.

(** ** Concrete inputs *)

Module Examples.

Import Stream.

Definition environment : Environment :=
  {| createId := "call-1"; timeOrigin := 1000; startTime := 20;
     endTime := 25 |}.

Definition fullResponseOptions : FunctionOptions :=
  {| functionId := None; run := None; fullResponse := Some true |}.

Definition plainOptions : FunctionOptions :=
  {| functionId := None; run := None; fullResponse := Some false |}.

(** A text model whose raw deltas are the text fragments themselves and
    whose stream is the given one. *)
Definition scriptedTextModel (trim : option bool)
  (script : list (Delta jsstring))
  : StreamText.TextStreamingModel unit unit jsstring :=
  {| StreamText.trimWhitespace := trim;
     StreamText.doStreamText := fun _ _ w => (Returned script, w);
     StreamText.extractTextDelta := fun raw => Some raw |}.

Definition helloWorld : list jsstring := [lit " Hello"; lit " world "].

(** The base URL [http://localhost:8080/v1]. *)
Definition localParts : Api.UrlParts :=
  {| Api.protocol := lit "http"; Api.host := lit "localhost";
     Api.port := lit "8080"; Api.path := lit "/v1" |}.

(** A store with the settings object of a model, at 1, and an object
    with additional settings, at 2. *)
Definition settingsHeap : LlamaCpp.Heap :=
  {[ 1%positive :=
       {[ "temperature"%string := LlamaCpp.VNumber (8 # 10);
          "cachePrompt"%string := LlamaCpp.VBool true ]};
     2%positive :=
       {[ "temperature"%string := LlamaCpp.VUndefined;
          "stopSequences"%string :=
            LlamaCpp.VArray [LlamaCpp.VString (lit "</s>")] ]} ]}.

Definition settingsModel : LlamaCpp.LlamaCppCompletionModel :=
  LlamaCpp.newLlamaCppCompletionModel 1%positive settingsHeap.

(** A callback that returns and one that throws. *)
Definition quietCallback : Generate.Callback jsstring jsstring jsstring jsstring :=
  fun _ => Returned tt.

Definition failingCallback : Generate.Callback jsstring jsstring jsstring jsstring :=
  fun _ => Threw (OtherError "observer failed").

(** A generate call on a model that answers ["raw"]; the output
    processor either passes the output on or throws. *)
Definition answeringModel : Generate.GenerateModel unit jsstring jsstring jsstring :=
  {| Generate.vendor := "vendor";
     Generate.model := "model";
     Generate.modelGenerate := fun _ _ w => (Returned (lit "raw"), w);
     Generate.modelExtractOutput := fun raw w => (Returned raw, w) |}.

Definition generateOptions (processOutput : jsstring -> Action unit jsstring)
  (model : Generate.GenerateModel unit jsstring jsstring jsstring)
  : Generate.GenerateOptions unit jsstring jsstring jsstring jsstring jsstring :=
  {| Generate.optFunctionId := None;
     Generate.prompt := fun input w => (Returned input, w);
     Generate.input := lit "prompt";
     Generate.optModel := model;
     Generate.processOutput := processOutput;
     Generate.extractOutput := None;
     Generate.retry := None;
     Generate.onCallStart := Some quietCallback;
     Generate.onCallEnd := Some quietCallback |}.

Definition passingOptions :=
  generateOptions (fun output w => (Returned output, w)) answeringModel.

Definition throwingOptions :=
  generateOptions (fun _ w => (Threw (OtherError "invalid output"), w))
    answeringModel.

(** The same call on a model whose request is aborted. *)
Definition abortedModel : Generate.GenerateModel unit jsstring jsstring jsstring :=
  {| Generate.vendor := "vendor";
     Generate.model := "model";
     Generate.modelGenerate := fun _ _ w => (Threw (AbortError "aborted"), w);
     Generate.modelExtractOutput := fun raw w => (Returned raw, w) |}.

Definition abortedOptions :=
  generateOptions (fun output w => (Returned output, w)) abortedModel.

(** The aborted call with an [onCallEnd] callback that throws. *)
Definition abortedOptionsFailingObserver
  : Generate.GenerateOptions unit jsstring jsstring jsstring jsstring jsstring :=
  {| Generate.optFunctionId := None;
     Generate.prompt := fun input w => (Returned input, w);
     Generate.input := lit "prompt";
     Generate.optModel := abortedModel;
     Generate.processOutput := fun output w => (Returned output, w);
     Generate.extractOutput := None;
     Generate.retry := None;
     Generate.onCallStart := Some quietCallback;
     Generate.onCallEnd := Some failingCallback |}.

(** An API configuration with the retry policy of the specification and
    no throttling, and a model whose settings hold it. *)
Definition localApi : Api.BaseUrlApiConfiguration LlamaCpp.Network :=
  {| Api.baseUrl := localParts;
     Api.headers := ∅;
     Api.retry := Retry.retryWithExponentialBackoff 3;
     Api.throttle := Retry.throttleOff |}.

Definition apiHeap : LlamaCpp.Heap :=
  {[ 1%positive := {[ "api"%string := LlamaCpp.VApi localApi ]} ]}.

Definition apiModel : LlamaCpp.LlamaCppCompletionModel :=
  LlamaCpp.newLlamaCppCompletionModel 1%positive apiHeap.

Definition storyPrompt : LlamaCpp.LlamaCppCompletionPrompt :=
  {| LlamaCpp.text := lit "Once"; LlamaCpp.images := None |}.

Definition chunk (content : string) (stop : bool)
  : LlamaCpp.LlamaCppTextStreamChunk :=
  {| LlamaCpp.content := lit content; LlamaCpp.stop := stop |}.

Definition malformed : JsError := OtherError "JSON parse error".

(** A body with two chunks and then an event that does not parse. *)
Definition brokenBody : LlamaCpp.ResponseBody :=
  LlamaCpp.BodyEvents
    [LlamaCpp.ValidEvent (chunk "a" false);
     LlamaCpp.ValidEvent (chunk "b" false);
     LlamaCpp.InvalidEvent malformed;
     LlamaCpp.ValidEvent (chunk "c" true)]
    None.

(** A body whose final chunk is followed by an event that does not parse. *)
Definition brokenAfterStop : LlamaCpp.ResponseBody :=
  LlamaCpp.BodyEvents
    [LlamaCpp.ValidEvent (chunk "a" false);
     LlamaCpp.ValidEvent (chunk "b" true);
     LlamaCpp.InvalidEvent malformed]
    None.

(** A server that refuses one connection and then answers with the
    broken body. *)
Definition flakyNetwork : LlamaCpp.Network :=
  {| LlamaCpp.exchanges :=
       [LlamaCpp.ConnectionFailed (ApiCallError true "503");
        LlamaCpp.ConnectionEstablished {| LlamaCpp.body := brokenBody |};
        LlamaCpp.ConnectionEstablished {| LlamaCpp.body := brokenBody |}];
     LlamaCpp.requests := [] |}.

End Examples.

(** ** More concrete inputs *)

Module MoreExamples.

(** A body that ends with the final chunk, and one that ends without
    it. *)
Definition completeEvents : list LlamaCpp.SseEvent :=
  [LlamaCpp.ValidEvent (Examples.chunk "a" false);
   LlamaCpp.ValidEvent (Examples.chunk "b" true)].

Definition openEndedChunks : list LlamaCpp.LlamaCppTextStreamChunk :=
  [Examples.chunk "a" false; Examples.chunk "b" false].

(** A store with an empty settings object at 3, besides the objects of
    [Examples.settingsHeap]. *)
Definition largerHeap : LlamaCpp.Heap :=
  <[3%positive := ∅]> Examples.settingsHeap.

(** Tools over a world that lists the tools executed; two of them share
    the name ["search"]. *)
Definition loggingTool (name : string) (label : string)
  : Tools.Tool (list string) jsstring jsstring unit :=
  {| Tools.name := name;
     Tools.description := label;
     Tools.inputSchema := tt;
     Tools.execute := fun parameters w => (Returned parameters, w ++ [label]) |}.

Definition toolbox : list (Tools.Tool (list string) jsstring jsstring unit) :=
  [loggingTool "calculator" "calculator";
   loggingTool "search" "first search";
   loggingTool "search" "second search"].

(** A model that asks for the tool with the given name. *)
Definition askingFor (schema : string)
  (definitions : list (Tools.SchemaDefinition unit)) (prompt : jsstring)
  (options : option Stream.FunctionOptions)
  : Action (list string) (Tools.ModelResponse jsstring) :=
  fun w => (Returned (Tools.JsonResponse schema (lit "query") None), w).


(** A speech model that reads the text stream it is given and answers
    with one buffer for each text, the text's own code units. *)
Definition readingSpeechModel
  : StreamSpeech.StreamingSpeechGenerationModel unit :=
  {| StreamSpeech.doGenerateSpeechStreamDuplex :=
       fun textStream _ w =>
         (Returned
            (map Stream.DeltaValue
               match textStream with
               | Stream.QueueIterable queue =>
                   fst (AsyncQueue.forAwait (S (length (AsyncQueue.values queue)))
                          queue AsyncQueue.iterator)
               | Stream.OtherIterable yields => yields
               end), w) |}.

(** A speech model that streams the given deltas. *)
Definition scriptedSpeechModel
  (script : list (Stream.Delta StreamSpeech.Buffer))
  : StreamSpeech.StreamingSpeechGenerationModel unit :=
  {| StreamSpeech.doGenerateSpeechStreamDuplex :=
       fun _ _ w => (Returned script, w) |}.

End MoreExamples.

(** * Properties *)

(** ** JavaScript strings *)

Section JsStrings.

Lemma forallb_rev (f : N -> bool) (s : jsstring) :
  forallb f (rev s) = forallb f s.
Proof.
  induction s as [|c s IH]; simpl; [done|].
  rewrite forallb_app, IH. simpl. rewrite andb_true_r. apply andb_comm.
Qed.

Lemma trimStart_app (a b : jsstring) :
  trimStart (a ++ b)
  = if forallb isWhiteSpace a then trimStart b else trimStart a ++ b.
Proof.
  induction a as [|c a IH]; simpl; [done|].
  destruct (isWhiteSpace c); simpl; done.
Qed.

Lemma trimStart_whitespace (w : jsstring) :
  forallb isWhiteSpace w = true -> trimStart w = [].
Proof.
  intros H. rewrite <- (app_nil_r w), trimStart_app, H. done.
Qed.

Lemma trimStart_nil_whitespace (s : jsstring) :
  trimStart s = [] -> forallb isWhiteSpace s = true.
Proof.
  induction s as [|c s IH]; simpl; [done|].
  destruct (isWhiteSpace c); simpl; [done|discriminate].
Qed.

Lemma trimStart_idem (s : jsstring) : trimStart (trimStart s) = trimStart s.
Proof.
  induction s as [|c s IH]; simpl; [done|].
  destruct (isWhiteSpace c) eqn:Hc; [done|]. simpl. by rewrite Hc.
Qed.

Lemma trimEnd_app (a b : jsstring) :
  trimEnd (a ++ b)
  = if forallb isWhiteSpace b then trimEnd a else a ++ trimEnd b.
Proof.
  unfold trimEnd. rewrite rev_app_distr, trimStart_app, forallb_rev.
  destruct (forallb isWhiteSpace b); [done|].
  by rewrite rev_app_distr, rev_involutive.
Qed.

Lemma trimEnd_whitespace (w : jsstring) :
  forallb isWhiteSpace w = true -> trimEnd w = [].
Proof.
  intros H. unfold trimEnd. rewrite trimStart_whitespace; [done|].
  by rewrite forallb_rev.
Qed.

Lemma trimEnd_idem (s : jsstring) : trimEnd (trimEnd s) = trimEnd s.
Proof. unfold trimEnd. by rewrite rev_involutive, trimStart_idem. Qed.

(** The string is its trimmed end followed by the match of [/\s+$/], and
    the match is white space. *)
Lemma matchTrailingWhitespace_spec (s : jsstring) :
  s = trimEnd s ++ default [] (matchTrailingWhitespace s)
  /\ forallb isWhiteSpace (default [] (matchTrailingWhitespace s)) = true.
Proof.
  induction s as [|c s [IHs IHw]]; [done|].
  cbn [matchTrailingWhitespace].
  destruct (forallb isWhiteSpace (c :: s)) eqn:Hall.
  - rewrite trimEnd_whitespace by done. done.
  - split; [|done].
    change (c :: s) with ([c] ++ s) at 2. rewrite trimEnd_app.
    destruct (forallb isWhiteSpace s) eqn:Hs.
    + simpl in Hall. rewrite Hs, andb_true_r in Hall.
      rewrite trimEnd_whitespace in IHs by done.
      unfold trimEnd. simpl. rewrite Hall. simpl. by f_equal.
    + simpl. by rewrite <- IHs.
Qed.

(** A string that ends exactly where its trimmed end does. *)
Lemma trimEnd_unique (x w t : jsstring) :
  x ++ w = t -> trimEnd x = x -> forallb isWhiteSpace w = true ->
  x = trimEnd t.
Proof. intros <- Hx Hw. by rewrite trimEnd_app, Hw. Qed.

Lemma trimEnd_concat (l : list jsstring) :
  Forall (fun e => trimEnd e = e) l -> trimEnd (concat l) = concat l.
Proof.
  induction 1 as [|e l He Hl IH]; simpl; [done|].
  rewrite trimEnd_app.
  destruct (forallb isWhiteSpace (concat l)) eqn:Hw.
  - rewrite trimEnd_whitespace in IH by done. by rewrite <- IH, app_nil_r.
  - by rewrite IH.
Qed.

End JsStrings.

(** ** The loop over the raw deltas *)

Section Iterate.

Import Stream.

Context {RAW OUT S : Type}.
Variable processDelta : S -> RAW -> option OUT * S.

Lemma iterate_values_end (raws : list RAW) (s : S) :
  snd (fst (iterate processDelta (map DeltaValue raws) s)) = EndOfStream.
Proof.
  revert s. induction raws as [|raw raws IH]; intros s; simpl; [done|].
  destruct (processDelta s raw) as [item s1].
  specialize (IH s1).
  destruct (iterate processDelta (map DeltaValue raws) s1) as [[more fin] s2].
  done.
Qed.

Lemma iterate_values_snoc (raws : list RAW) (raw : RAW) (s : S) :
  iterate processDelta (map DeltaValue (raws ++ [raw])) s
  = let '(out, _, s1) := iterate processDelta (map DeltaValue raws) s in
    let '(item, s2) := processDelta s1 raw in
    (out ++ match item with Some x => [x] | None => [] end, EndOfStream, s2).
Proof.
  revert s. induction raws as [|r raws IH]; intros s; simpl.
  - destruct (processDelta s raw) as [[x|] s2]; done.
  - destruct (processDelta s r) as [item s1]. rewrite IH.
    destruct (iterate processDelta (map DeltaValue raws) s1) as [[more fin] s2].
    destruct (processDelta s2 raw) as [item' s3].
    destruct item; done.
Qed.

End Iterate.

(** ** streamText: whitespace trimming *)

Section Trimming.

Import Stream StreamText Props.

Context {W PROMPT RAW : Type}.
Variable model : TextStreamingModel W PROMPT RAW.

Lemma fragments_cons (raw : RAW) (raws : list RAW) :
  fragments model (raw :: raws)
  = match extractTextDelta model raw with
    | Some textDelta =>
        if (length textDelta =? 0)%nat then fragments model raws
        else textDelta :: fragments model raws
    | None => fragments model raws
    end.
Proof.
  unfold fragments. simpl.
  destruct (extractTextDelta model raw) as [t|]; [|done].
  destruct (length t =? 0)%nat; done.
Qed.

Lemma trimming_invariant (raws : list RAW) (c : Closure) :
  forallb isWhiteSpace (trailingWhitespace c) = true ->
  (isFirstDelta c = true -> trailingWhitespace c = []) ->
  forall out fin c',
  iterate (processDelta model true) (map DeltaValue raws) c = (out, fin, c') ->
  concat out ++ trailingWhitespace c' = pending c (fragments model raws)
  /\ forallb isWhiteSpace (trailingWhitespace c') = true
  /\ Forall (fun e => trimEnd e = e) out
  /\ length out = length (fragments model raws)
  /\ accumulatedText c' = accumulatedText c ++ concat out
  /\ textPromise c' = textPromise c
  /\ isFirstDelta c'
     = isFirstDelta c && (length (fragments model raws) =? 0)%nat.
Proof.
  revert c. induction raws as [|raw raws IH]; intros c Hw Hfirst out fin c'.
  - simpl. intros [= <- <- <-]. unfold pending. simpl.
    rewrite andb_true_r.
    repeat split; try done; [|by rewrite app_nil_r].
    destruct (isFirstDelta c) eqn:Hf; [by apply Hfirst|by rewrite app_nil_r].
  - cbn [map iterate]. rewrite fragments_cons. unfold processDelta at 1.
    destruct (extractTextDelta model raw) as [textDelta|]; [|].
    2:{ destruct (iterate _ _ c) as [[more fin'] c''] eqn:Hit.
        intros [= <- <- <-]. exact (IH c Hw Hfirst _ _ _ Hit). }
    destruct (length textDelta =? 0)%nat eqn:Hlen.
    { destruct (iterate _ _ c) as [[more fin'] c''] eqn:Hit.
      intros [= <- <- <-]. exact (IH c Hw Hfirst _ _ _ Hit). }
    set (t := if isFirstDelta c then trimStart textDelta
              else trailingWhitespace c ++ textDelta).
    destruct (matchTrailingWhitespace_spec t) as [Ht Htw].
    set (c1 := {| accumulatedText := accumulatedText c ++ trimEnd t;
                  isFirstDelta := false;
                  trailingWhitespace := default [] (matchTrailingWhitespace t);
                  textPromise := textPromise c |}).
    destruct (iterate _ (map DeltaValue raws) c1) as [[more fin'] c''] eqn:Hit.
    intros [= <- <- <-].
    destruct (IH c1 Htw ltac:(done) _ _ _ Hit)
      as (Hcat & Hws & Hall & Hlen' & Hacc & Hprom & Hfst).
    repeat split.
    + simpl. rewrite <- app_assoc, Hcat. unfold pending at 1. simpl.
      rewrite app_assoc, <- Ht. unfold pending, t.
      destruct (isFirstDelta c); simpl; [done|by rewrite app_assoc].
    + done.
    + constructor; [apply trimEnd_idem|done].
    + simpl. by rewrite Hlen'.
    + rewrite Hacc. simpl. by rewrite app_assoc.
    + by rewrite Hprom.
    + rewrite Hfst. simpl. by rewrite andb_false_r.
Qed.

End Trimming.

Section TrimmingClaim.

Import Stream StreamText Props.

Context {W PROMPT RAW : Type}.
Variable model : TextStreamingModel W PROMPT RAW.

Lemma afterDeltas_invariant (raws : list RAW) :
  concat (emitted model true raws) ++ withheld model true raws
  = joined (fragments model raws)
  /\ forallb isWhiteSpace (withheld model true raws) = true
  /\ Forall (fun e => trimEnd e = e) (emitted model true raws)
  /\ length (emitted model true raws) = length (fragments model raws)
  /\ accumulatedText (snd (afterDeltas model true raws))
     = concat (emitted model true raws)
  /\ isFirstDelta (snd (afterDeltas model true raws))
     = (length (fragments model raws) =? 0)%nat.
Proof.
  unfold emitted, withheld, afterDeltas.
  destruct (iterate _ (map DeltaValue raws) initial) as [[out fin] c'] eqn:Hit.
  destruct (trimming_invariant model raws initial eq_refl (fun _ => eq_refl)
              _ _ _ Hit) as (H1 & H2 & H3 & H4 & H5 & _ & H7).
  simpl in *. done.
Qed.

Lemma afterDeltas_snoc (raws : list RAW) (raw : RAW) (textDelta : jsstring) :
  extractTextDelta model raw = Some textDelta -> textDelta <> [] ->
  let c := snd (afterDeltas model true raws) in
  let t := if isFirstDelta c then trimStart textDelta
           else trailingWhitespace c ++ textDelta in
  emitted model true (raws ++ [raw]) = emitted model true raws ++ [trimEnd t]
  /\ trimEnd t ++ withheld model true (raws ++ [raw]) = t.
Proof.
  intros Hx Hne. unfold emitted, withheld, afterDeltas.
  rewrite iterate_values_snoc.
  destruct (iterate _ (map DeltaValue raws) initial) as [[out fin] c'].
  unfold processDelta. rewrite Hx.
  destruct textDelta as [|ch rest]; [done|]. simpl.
  split; [done|].
  symmetry. apply matchTrailingWhitespace_spec.
Qed.

End TrimmingClaim.

(** C1.  With trimming enabled, [streamText] removes leading white space
    from the first non-empty extracted fragment only, withholds the
    trailing white space of every fragment and puts it in front of the
    next one, so that the fragments surfaced so far followed by the white
    space withheld are always the fragments received (less the leading white
    space of the first), and only the white space withheld when the stream
    ends is dropped.  For the fragments [" Hello"] and [" world "] the
    stream yields ["Hello"] and [" world"], the text is ["Hello world"]. *)
Theorem streamText_whitespace_trimming :
  forall (W PROMPT RAW : Type)
    (model : StreamText.TextStreamingModel W PROMPT RAW) (raws : list RAW),
  let out := Props.emitted model true in
  let held := Props.withheld model true in
  let frags := Props.fragments model in
  (* one public fragment for every non-empty extracted fragment *)
  length (out raws) = length (frags raws)
  (* nothing is lost but leading white space of the first fragment and the
     white space that is withheld *)
  /\ concat (out raws) ++ held raws = Props.joined (frags raws)
  /\ forallb isWhiteSpace (held raws) = true
  /\ concat (out raws) = trimEnd (Props.joined (frags raws))
  (* the first non-empty fragment *)
  /\ (forall raw textDelta,
        frags raws = [] ->
        StreamText.extractTextDelta model raw = Some textDelta ->
        textDelta <> [] ->
        out (raws ++ [raw]) = [trimEnd (trimStart textDelta)]
        /\ trimEnd (trimStart textDelta) ++ held (raws ++ [raw])
           = trimStart textDelta)
  (* a later non-empty fragment *)
  /\ (forall raw textDelta,
        frags raws <> [] ->
        StreamText.extractTextDelta model raw = Some textDelta ->
        textDelta <> [] ->
        out (raws ++ [raw]) = out raws ++ [trimEnd (held raws ++ textDelta)]
        /\ trimEnd (held raws ++ textDelta) ++ held (raws ++ [raw])
           = held raws ++ textDelta)
  (* these are the fragments of the stream that streamText returns *)
  /\ (forall prompt options env w w',
        StreamText.trimWhitespace model <> Some false ->
        StreamText.doStreamText model prompt options w
        = (Returned (map Stream.DeltaValue raws), w') ->
        exists result events,
          StreamText.streamText model prompt options env w
          = (Returned result, events, w')
          /\ StreamText.streamOf result
             = {| Stream.items := out raws;
                  Stream.ending := Stream.EndOfStream |})
  (* the example of the specification *)
  /\ (exists metadata,
        fst (fst (StreamText.streamText
                    (Examples.scriptedTextModel None
                       (map Stream.DeltaValue Examples.helloWorld))
                    tt (Some Examples.fullResponseOptions)
                    Examples.environment tt))
        = Returned
            (StreamText.TextFullResponse
               {| Stream.items := [lit "Hello"; lit " world"];
                  Stream.ending := Stream.EndOfStream |}
               (Some (lit "Hello world")) metadata)).
Proof.
  intros W PROMPT RAW model raws out held frags.
  destruct (afterDeltas_invariant model raws)
    as (Hjoin & Hws & Hall & Hlen & Hacc & Hfirst).
  split; [exact Hlen|]. split; [exact Hjoin|]. split; [exact Hws|].
  split.
  { eapply trimEnd_unique; [exact Hjoin| |exact Hws].
    by apply trimEnd_concat. }
  split.
  { intros raw textDelta Hnil Hx Hne.
    destruct (afterDeltas_snoc model raws raw textDelta Hx Hne) as [Ho Hh].
    fold frags in Hfirst. rewrite Hnil in Hfirst. simpl in Hfirst.
    rewrite Hfirst in Ho, Hh.
    assert (Hout : Props.emitted model true raws = []).
    { fold frags in Hlen. rewrite Hnil in Hlen.
      by destruct (Props.emitted model true raws). }
    rewrite Hout in Ho. done. }
  split.
  { intros raw textDelta Hnil Hx Hne.
    destruct (afterDeltas_snoc model raws raw textDelta Hx Hne) as [Ho Hh].
    fold frags in Hfirst.
    destruct (frags raws) as [|f fs] eqn:Hf; [done|].
    simpl in Hfirst. rewrite Hfirst in Ho, Hh. done. }
  split.
  { intros prompt options env w w' Htrim Hstart.
    unfold StreamText.streamText, Stream.executeStreamCall.
    rewrite Hstart.
    assert (Hshould : default true (StreamText.trimWhitespace model) = true).
    { destruct (StreamText.trimWhitespace model) as [[|]|]; done. }
    rewrite Hshould.
    pose proof (iterate_values_end (StreamText.processDelta model true) raws
                  StreamText.initial) as Hend.
    unfold out, Props.emitted, Props.afterDeltas.
    destruct (Stream.iterate _ (map Stream.DeltaValue raws) StreamText.initial)
      as [[o fin] c'].
    simpl in Hend. subst fin.
    eexists _, _. split; [reflexivity|].
    destruct (Stream.wantsFullResponse options); done. }
  eexists. vm_compute. reflexivity.
Qed.

(** The first clause for a later fragment, at the fragments of the
    example: [" world "] comes after [" Hello"]. *)
Lemma streamText_whitespace_trimming_witness :
  let model :=
    Examples.scriptedTextModel None (map Stream.DeltaValue Examples.helloWorld)
  in
  Props.emitted model true ([lit " Hello"] ++ [lit " world "])
  = Props.emitted model true [lit " Hello"]
    ++ [trimEnd (Props.withheld model true [lit " Hello"] ++ lit " world ")].
Proof.
  intros model.
  refine (proj1 (proj1 (proj2 (proj2 (proj2 (proj2 (proj2
    (streamText_whitespace_trimming unit unit jsstring model [lit " Hello"]))))))
    (lit " world ") (lit " world ") _ _ _)).
  - vm_compute. discriminate.
  - reflexivity.
  - vm_compute. discriminate.
Defined.

(** ** streamText: the text promise *)

Section TextPromise.

Import Stream StreamText.

Context {W PROMPT RAW : Type}.
Variable model : TextStreamingModel W PROMPT RAW.

(** Whatever the deltas, the closure accumulates exactly the fragments that
    are surfaced, and [processDelta] leaves the promise alone. *)
Lemma iterate_accumulates (shouldTrimWhitespace : bool)
  (deltas : list (Delta RAW)) (c : Closure) :
  forall out fin c',
  iterate (processDelta model shouldTrimWhitespace) deltas c = (out, fin, c') ->
  accumulatedText c' = accumulatedText c ++ concat out
  /\ textPromise c' = textPromise c.
Proof.
  revert c. induction deltas as [|delta deltas IH]; intros c out fin c'.
  - simpl. intros [= <- <- <-]. by rewrite app_nil_r.
  - destruct delta as [raw|e].
    + cbn [iterate].
      destruct (processDelta model shouldTrimWhitespace c raw)
        as [item c1] eqn:Hstep.
      destruct (iterate _ deltas c1) as [[more fin'] c''] eqn:Hit.
      intros [= <- <- <-].
      destruct (IH c1 _ _ _ Hit) as [Hacc Hprom].
      unfold processDelta in Hstep.
      destruct (extractTextDelta model raw) as [textDelta|].
      2:{ injection Hstep as <- <-. done. }
      destruct (length textDelta =? 0)%nat.
      { injection Hstep as <- <-. done. }
      destruct (if shouldTrimWhitespace then _ else _) as [t trailing].
      injection Hstep as <- <-. simpl in *.
      by rewrite Hacc, app_assoc.
    + cbn [iterate]. destruct e; intros [= <- <- <-]; by rewrite app_nil_r.
Qed.

End TextPromise.

(** ** What a stream call gives for the deltas of the model *)

Section StreamFacts.

Import Stream.

Lemma iterate_passes_values {T : Type} (deltas : list (Delta T)) :
  fst (fst (iterate (fun (s : unit) (deltaValue : T) => (Some deltaValue, s))
              deltas tt))
  = MoreProps.valuesBeforeError deltas.
Proof.
  induction deltas as [|[v|e] deltas IH]; simpl; [done| |by destruct e].
  destruct (iterate _ deltas ()) as [[more fin] s]. simpl in *.
  by rewrite IH.
Qed.

Lemma iterate_ending {RAW OUT S : Type} (processDelta : S -> RAW -> option OUT * S)
  (deltas : list (Delta RAW)) (s : S) :
  snd (fst (iterate processDelta deltas s)) = MoreProps.endingOf deltas.
Proof.
  revert s. induction deltas as [|[v|e] deltas IH]; intros s; simpl;
    [done| |by destruct e].
  destruct (processDelta s v) as [item s1].
  specialize (IH s1). destruct (iterate _ deltas s1) as [[more fin] s2].
  done.
Qed.

(** [streamSpeech], by the completion of the model's duplex call on the
    text stream. *)
Lemma streamSpeech_by_model {W : Type}
  (model : StreamSpeech.StreamingSpeechGenerationModel W)
  (text : StreamSpeech.TextInput) (options : option FunctionOptions)
  (env : Environment) (w : W) :
  match
    StreamSpeech.doGenerateSpeechStreamDuplex model
      (StreamSpeech.textStreamOf text) options w
  with
  | (Returned deltas, w') =>
      exists events,
        StreamSpeech.streamSpeech model text options env w
        = (Returned
             match options ≫= fullResponse with
             | Some true =>
                 StreamSpeech.SpeechFullResponse
                   (MoreProps.speechStreamFor deltas)
                   (MoreProps.metadataOf "stream-speech" options env)
             | Some false | None =>
                 StreamSpeech.SpeechStream (MoreProps.speechStreamFor deltas)
             end, events, w')
  | (Threw e, w') =>
      exists events,
        StreamSpeech.streamSpeech model text options env w
        = (Threw e, events, w')
  end.
Proof.
  unfold StreamSpeech.streamSpeech, executeStreamCall.
  destruct (StreamSpeech.doGenerateSpeechStreamDuplex model _ options w)
    as [[deltas|e] w']; [|by eexists].
  pose proof (iterate_passes_values deltas) as Hout.
  pose proof (iterate_ending
                (fun (s : unit) (v : StreamSpeech.Buffer) => (Some v, s))
                deltas tt) as Hfin.
  destruct (iterate _ deltas ()) as [[out fin] s]. simpl in Hout, Hfin.
  unfold MoreProps.speechStreamFor. rewrite <- Hout, <- Hfin.
  unfold wantsFullResponse, MoreProps.metadataOf.
  destruct fin; eexists;
    by destruct (options ≫= fullResponse) as [[|]|].
Qed.

End StreamFacts.




(** ** The shape of what the stream functions return *)

(** C8.  [streamText] and [streamSpeech] return the bare stream of the
    outputs when [options.fullResponse] is absent or false, and exactly
    when it is [true] the object that bundles this same stream with the
    text (for [streamText]) and the metadata of the call; the stream is the
    one of the processed deltas of the model, and an error of the model's
    call is thrown on. *)
Theorem stream_functions_return_shape :
  (forall (W PROMPT RAW : Type)
     (model : StreamText.TextStreamingModel W PROMPT RAW)
     (prompt : PROMPT) (options : option Stream.FunctionOptions)
     (env : Environment) (w : W),
     match StreamText.doStreamText model prompt options w with
     | (Returned deltas, w') =>
         let textStream := MoreProps.textStreamFor model deltas in
         exists events,
           StreamText.streamText model prompt options env w
           = (Returned
                match options ≫= Stream.fullResponse with
                | Some true =>
                    StreamText.TextFullResponse textStream
                      (MoreProps.textFor textStream)
                      (MoreProps.metadataOf "stream-text" options env)
                | Some false | None => StreamText.TextStream textStream
                end, events, w')
     | (Threw e, w') =>
         exists events,
           StreamText.streamText model prompt options env w
           = (Threw e, events, w')
     end)
  /\
  (forall (W : Type) (model : StreamSpeech.StreamingSpeechGenerationModel W)
     (text : StreamSpeech.TextInput) (options : option Stream.FunctionOptions)
     (env : Environment) (w : W),
     match
       StreamSpeech.doGenerateSpeechStreamDuplex model
         (StreamSpeech.textStreamOf text) options w
     with
     | (Returned deltas, w') =>
         let speechStream := MoreProps.speechStreamFor deltas in
         exists events,
           StreamSpeech.streamSpeech model text options env w
           = (Returned
                match options ≫= Stream.fullResponse with
                | Some true =>
                    StreamSpeech.SpeechFullResponse speechStream
                      (MoreProps.metadataOf "stream-speech" options env)
                | Some false | None =>
                    StreamSpeech.SpeechStream speechStream
                end, events, w')
     | (Threw e, w') =>
         exists events,
           StreamSpeech.streamSpeech model text options env w
           = (Threw e, events, w')
     end).
Proof.
  split.
  - intros W PROMPT RAW model prompt options env w.
    unfold StreamText.streamText, Stream.executeStreamCall.
    destruct (StreamText.doStreamText model prompt options w)
      as [[deltas|e] w']; [|by eexists].
    unfold MoreProps.textStreamFor, MoreProps.textFor.
    destruct (Stream.iterate _ deltas StreamText.initial)
      as [[out fin] c'] eqn:Hit.
    destruct (iterate_accumulates model _ deltas _ _ _ _ Hit) as [Hacc Hprom].
    simpl in Hacc, Hprom.
    unfold Stream.wantsFullResponse, MoreProps.metadataOf.
    destruct fin; eexists;
      destruct (options ≫= Stream.fullResponse) as [[|]|]; simpl;
      rewrite ?Hprom, ?Hacc; reflexivity.
  - intros W model text options env w.
    apply streamSpeech_by_model.
Qed.

Lemma stream_functions_return_shape_witness :
  exists events,
    StreamText.streamText
      (Examples.scriptedTextModel None
         (map Stream.DeltaValue Examples.helloWorld))
      tt (Some Examples.plainOptions) Examples.environment tt
    = (Returned
         (StreamText.TextStream
            {| Stream.items := [lit "Hello"; lit " world"];
               Stream.ending := Stream.EndOfStream |}), events, tt).
Proof.
  exact (proj1 stream_functions_return_shape unit unit jsstring
           (Examples.scriptedTextModel None
              (map Stream.DeltaValue Examples.helloWorld))
           tt (Some Examples.plainOptions) Examples.environment tt).
Defined.

(** ** AsyncQueue *)

Section QueueFacts.

Context {T : Type}.

Lemma pushAll_open (items : list T) (q : AsyncQueue.t T) :
  AsyncQueue.closed q = false ->
  AsyncQueue.pushAll q items
  = AsyncQueue.Make (AsyncQueue.values q ++ items) false
      (AsyncQueue.terminalError q).
Proof.
  revert q. induction items as [|item items IH]; intros [vs cl err] Hopen;
    simpl in *; subst cl.
  - by rewrite app_nil_r.
  - unfold AsyncQueue.pushAll in *. simpl. rewrite IH by done. simpl.
    by rewrite <- app_assoc.
Qed.

(** Pushing on a closed queue changes nothing. *)
Lemma push_closed (q : AsyncQueue.t T) (item : T) :
  AsyncQueue.closed q = true -> AsyncQueue.push q item = (false, q).
Proof. intros H. unfold AsyncQueue.push. by rewrite H. Qed.

Lemma close_idempotent (q : AsyncQueue.t T) :
  AsyncQueue.close (AsyncQueue.close q) = AsyncQueue.close q.
Proof. done. Qed.

Lemma forAwait_step (fuel : nat) (q : AsyncQueue.t T) (position : nat) :
  AsyncQueue.forAwait (S fuel) q position
  = match AsyncQueue.next q position with
    | (AsyncQueue.Item v, position') =>
        let (seen, fin) := AsyncQueue.forAwait fuel q position' in
        (v :: seen, fin)
    | (AsyncQueue.Done, _) => ([], AsyncQueue.Finished)
    | (AsyncQueue.Failed e, _) => ([], AsyncQueue.Thrown e)
    | (AsyncQueue.Pending, _) => ([], AsyncQueue.Suspended)
    end.
Proof. done. Qed.

(** A consumer of a closed queue without error, standing after [before],
    observes the rest and finishes. *)
Lemma forAwait_closed (rest before : list T) (extra : nat) :
  AsyncQueue.forAwait (S (length rest) + extra)
    (AsyncQueue.Make (before ++ rest) true None) (length before)
  = (rest, AsyncQueue.Finished).
Proof.
  revert before. induction rest as [|item rest IH]; intros before.
  - change (S (length (@nil T)) + extra)%nat with (S extra).
    rewrite forAwait_step. unfold AsyncQueue.next. cbn [AsyncQueue.values].
    rewrite app_nil_r.
    replace (nth_error before (length before)) with (@None T); [done|].
    symmetry. by apply nth_error_None.
  - change (S (length (item :: rest)) + extra)%nat
      with (S (S (length rest) + extra)).
    rewrite forAwait_step. unfold AsyncQueue.next at 1.
    cbn [AsyncQueue.values].
    rewrite nth_error_app2 by done. rewrite Nat.sub_diag. cbn [nth_error].
    replace (before ++ item :: rest) with ((before ++ [item]) ++ rest)
      by (by rewrite <- app_assoc).
    replace (S (length before)) with (length (before ++ [item]))
      by (rewrite length_app; simpl; lia).
    by rewrite IH.
Qed.

End QueueFacts.

(** C5.  After [N] pushes on a new queue and a [close], a fresh consumer
    observes exactly the [N] items, in the order of the pushes, and then
    terminates normally (with any number of steps above [N]). *)
Theorem asyncQueue_pushes_then_close :
  forall (T : Type) (items : list T) (extra : nat),
  AsyncQueue.forAwait (S (length items) + extra)
    (AsyncQueue.close (AsyncQueue.pushAll AsyncQueue.empty items))
    AsyncQueue.iterator
  = (items, AsyncQueue.Finished).
Proof.
  intros T items extra. rewrite pushAll_open by done.
  apply (forAwait_closed items []).
Qed.

(** ** streamSpeech: a string as input *)

(** C7.  For a string, [streamSpeech] makes the text stream an
    [AsyncQueue] that holds exactly this string and is closed, and hands
    that queue to the pipeline: the model's duplex call is made on this
    queue, and the call returns the stream of the buffers of that call (or
    throws its error).  This is the path of a stream input: the call gives
    what the call with this queue as its input gives. *)
Theorem streamSpeech_string_input :
  forall (W : Type) (model : StreamSpeech.StreamingSpeechGenerationModel W)
    (text : jsstring) (options : option Stream.FunctionOptions)
    (env : Environment) (w : W),
  let queue := AsyncQueue.Make [text] true None in
  StreamSpeech.textStreamOf (StreamSpeech.TextString text)
  = Stream.QueueIterable queue
  /\ AsyncQueue.forAwait 2 queue AsyncQueue.iterator
     = ([text], AsyncQueue.Finished)
  /\ match
       StreamSpeech.doGenerateSpeechStreamDuplex model
         (Stream.QueueIterable queue) options w
     with
     | (Returned deltas, w') =>
         exists result events,
           StreamSpeech.streamSpeech model (StreamSpeech.TextString text)
             options env w
           = (Returned result, events, w')
           /\ MoreProps.speechOf result = MoreProps.speechStreamFor deltas
     | (Threw e, w') =>
         exists events,
           StreamSpeech.streamSpeech model (StreamSpeech.TextString text)
             options env w
           = (Threw e, events, w')
     end
  /\ fst (fst (StreamSpeech.streamSpeech model
                 (StreamSpeech.TextString text) options env w))
     = fst (fst (StreamSpeech.streamSpeech model
                   (StreamSpeech.TextIterable (Stream.QueueIterable queue))
                   options env w))
  /\ snd (StreamSpeech.streamSpeech model
            (StreamSpeech.TextString text) options env w)
     = snd (StreamSpeech.streamSpeech model
              (StreamSpeech.TextIterable (Stream.QueueIterable queue))
              options env w).
Proof.
  intros W model text options env w queue.
  split; [done|]. split; [done|]. split.
  - pose proof (streamSpeech_by_model model (StreamSpeech.TextString text)
                  options env w) as Hcall.
    change (StreamSpeech.textStreamOf (StreamSpeech.TextString text))
      with (Stream.QueueIterable queue) in Hcall.
    destruct (StreamSpeech.doGenerateSpeechStreamDuplex model
                (Stream.QueueIterable queue) options w) as [[deltas|e] w'];
      [|done].
    destruct Hcall as [events Hcall]. eexists _, events.
    split; [exact Hcall|].
    by destruct (options ≫= Stream.fullResponse) as [[|]|].
  - unfold StreamSpeech.streamSpeech, Stream.executeStreamCall.
    change (StreamSpeech.textStreamOf (StreamSpeech.TextString text))
      with (Stream.QueueIterable queue).
    change (StreamSpeech.textStreamOf
              (StreamSpeech.TextIterable (Stream.QueueIterable queue)))
      with (Stream.QueueIterable queue).
    destruct (StreamSpeech.doGenerateSpeechStreamDuplex model
                (Stream.QueueIterable queue) options w) as [[deltas|e] w1];
      [|done].
    destruct (Stream.iterate _ deltas ()) as [[out fin] c'].
    destruct fin; done.
Qed.

Lemma streamSpeech_string_input_witness :
  exists result events,
    StreamSpeech.streamSpeech MoreExamples.readingSpeechModel
      (StreamSpeech.TextString (lit "Hi")) None Examples.environment tt
    = (Returned result, events, tt)
    /\ MoreProps.speechOf result
       = {| Stream.items := [lit "Hi"];
            Stream.ending := Stream.EndOfStream |}.
Proof.
  exact (proj1 (proj2 (proj2
           (streamSpeech_string_input unit MoreExamples.readingSpeechModel
              (lit "Hi") None Examples.environment tt)))).
Defined.

(** ** assembleUrl *)

Section UrlFacts.

Import Props.

Lemma startsWith_slash (s : jsstring) :
  startsWith s (lit "/") = match s with
                           | [] => false
                           | c :: _ => isSlash c
                           end.
Proof.
  destruct s as [|c s]; [done|].
  change (startsWith (c :: s) (lit "/")) with ((47 =? c) && true).
  rewrite andb_true_r. apply N.eqb_sym.
Qed.

Lemma startsWith_two_slashes (s : jsstring) :
  startsWith s (lit "//") = match s with
                            | c :: d :: _ => isSlash c && isSlash d
                            | _ => false
                            end.
Proof.
  destruct s as [|c [|d s]]; [done| |].
  - change (startsWith [c] (lit "//")) with ((47 =? c) && false).
    apply andb_false_r.
  - change (startsWith (c :: d :: s) (lit "//"))
      with ((47 =? c) && ((47 =? d) && true)).
    rewrite andb_true_r. unfold isSlash, slash.
    by rewrite (N.eqb_sym 47 c), (N.eqb_sym 47 d).
Qed.

Lemma endsWith_slash (s : jsstring) :
  endsWith s (lit "/") = startsWith (rev s) (lit "/").
Proof. done. Qed.

Lemma endsWith_two_slashes (s : jsstring) :
  endsWith s (lit "//") = startsWith (rev s) (lit "//").
Proof. done. Qed.

(** [slice(0, -1)] drops the last character. *)
Lemma slice_drop_last (s : jsstring) (c : N) :
  slice (s ++ [c]) 0 (-1) = s.
Proof.
  unfold slice. rewrite length_app. cbn [length].
  replace (0 <? 0)%Z with false by done.
  replace (-1 <? 0)%Z with true by done.
  rewrite Z.min_l by lia. rewrite Z.max_l by lia.
  replace (Z.to_nat 0) with 0%nat by done. cbn [skipn].
  replace (Z.to_nat (Z.of_nat (length s + 1) + -1 - 0)) with (length s) by lia.
  apply take_app_length.
Qed.

(** The base path as [assembleUrl] uses it, read from its end. *)
Lemma basePath_stripped_rev (r : jsstring) :
  startsWith r (lit "//") = false ->
  (if startsWith r (lit "/") then slice (rev r) 0 (-1) else rev r)
  = rev (stripLeadingSlashes r).
Proof.
  rewrite startsWith_two_slashes, startsWith_slash.
  destruct r as [|c [|d r]]; [done| |].
  - intros _. cbn [stripLeadingSlashes]. destruct (isSlash c); [|done].
    apply (slice_drop_last [] c).
  - intros H. cbn [stripLeadingSlashes]. destruct (isSlash c); [|done].
    simpl in H. rewrite H.
    change (rev (c :: d :: r)) with (rev (d :: r) ++ [c]).
    apply slice_drop_last.
Qed.

Lemma basePath_stripped (basePath : jsstring) :
  endsWith basePath (lit "//") = false ->
  (if endsWith basePath (lit "/") then slice basePath 0 (-1) else basePath)
  = stripTrailingSlashes basePath.
Proof.
  rewrite endsWith_two_slashes, endsWith_slash. intros H.
  pose proof (basePath_stripped_rev (rev basePath) H) as Hr.
  by rewrite rev_involutive in Hr.
Qed.

(** The path as [assembleUrl] uses it. *)
Lemma path_with_slash (path : jsstring) :
  startsWith path (lit "//") = false ->
  (if negb (startsWith path (lit "/")) then lit "/" ++ path else path)
  = lit "/" ++ stripLeadingSlashes path.
Proof.
  rewrite startsWith_two_slashes, startsWith_slash.
  destruct path as [|c [|d p]]; [done| |].
  - intros _. cbn [stripLeadingSlashes]. destruct (isSlash c) eqn:Hc; [|done].
    apply N.eqb_eq in Hc. by subst c.
  - intros H. cbn [stripLeadingSlashes]. destruct (isSlash c) eqn:Hc; [|done].
    simpl in H. rewrite H. apply N.eqb_eq in Hc. by subst c.
Qed.

End UrlFacts.

(** C9, as the code has it.  A trailing slash of the base path and a
    leading slash of the path make no difference to the assembled URL, and
    the URL has exactly one slash between base path and path when the base
    path does not end, and the path does not start, in two or more
    slashes. *)
Theorem assembleUrl_join :
  forall (parts : Api.UrlParts) (path : jsstring),
  (endsWith (Api.path parts) (lit "/") = false ->
   Api.assembleUrlParts
     (Props.withPath parts (Api.path parts ++ lit "/")) path
   = Api.assembleUrlParts parts path)
  /\ (startsWith path (lit "/") = false ->
      Api.assembleUrlParts parts path
      = Api.assembleUrlParts parts (lit "/" ++ path))
  /\ (endsWith (Api.path parts) (lit "//") = false ->
      startsWith path (lit "//") = false ->
      Props.oneSlashAtJoin parts path)
  /\ (forall (W : Type) (api : Api.BaseUrlApiConfiguration W),
      Api.baseUrl api = parts ->
      Api.assembleUrl api path = Api.assembleUrlParts parts path).
Proof.
  intros parts path. repeat split.
  - intros Hend. unfold Api.assembleUrlParts, Props.withPath. simpl.
    rewrite Hend.
    replace (endsWith (Api.path parts ++ lit "/") (lit "/")) with true.
    2:{ rewrite endsWith_slash, rev_app_distr. done. }
    change (Api.path parts ++ lit "/") with (Api.path parts ++ [47]).
    by rewrite slice_drop_last.
  - intros Hstart. unfold Api.assembleUrlParts. rewrite Hstart. simpl.
    done.
  - intros Hbase Hpath. unfold Props.oneSlashAtJoin, Api.assembleUrlParts.
    rewrite (basePath_stripped _ Hbase), (path_with_slash _ Hpath).
    unfold Props.origin. by rewrite <- !app_assoc.
  - intros W api <-. done.
Qed.

Lemma assembleUrl_join_witness :
  Props.oneSlashAtJoin Examples.localParts (lit "/completion").
Proof.
  refine (proj1 (proj2 (proj2
    (assembleUrl_join Examples.localParts (lit "/completion")))) _ _);
    reflexivity.
Defined.

(** C9, as stated, fails for a path that starts with two slashes: with the
    base path ["/v1"] and the path ["//x"] the URL has two slashes at the
    join. *)
Lemma assembleUrl_two_slashes :
  endsWith (Api.path Examples.localParts) (lit "//") = false
  /\ Api.assembleUrlParts Examples.localParts (lit "//x")
     = lit "http://localhost:8080/v1//x"
  /\ ~ Props.oneSlashAtJoin Examples.localParts (lit "//x").
Proof.
  split; [reflexivity|]. split; [reflexivity|].
  unfold Props.oneSlashAtJoin. vm_compute. discriminate.
Qed.

(** ** withSettings *)

Section SettingsFacts.

Import LlamaCpp.

Lemma newObject_fresh (h : Heap) : fst (newObject h) ∉ dom h.
Proof. unfold newObject. simpl. apply is_fresh. Qed.

(** [Object.assign] with two sources that are not the target. *)
Lemma objectAssign_two (target s1 s2 : positive) (h : Heap) :
  s1 <> target -> s2 <> target ->
  objectAssign target [s1; s2] h
  = <[target := default ∅ (h !! s2)
                ∪ (default ∅ (h !! s1) ∪ default ∅ (h !! target))]> h.
Proof.
  intros H1 H2. unfold objectAssign. simpl.
  rewrite lookup_insert_eq. rewrite lookup_insert_ne by done.
  simpl. by rewrite insert_insert_eq.
Qed.

End SettingsFacts.

(** C10.  [withSettings] returns a model with a new settings object: its
    properties are those of the additional settings where these have the
    key, and those of the model's settings elsewhere; the settings object
    of the model, and every other object there was, is as before. *)
Theorem withSettings_overrides_and_frames :
  forall (this : LlamaCpp.LlamaCppCompletionModel)
    (additionalSettings : positive) (h : LlamaCpp.Heap),
  LlamaCpp.settings this ∈ dom h ->
  additionalSettings ∈ dom h ->
  let result := LlamaCpp.withSettings this additionalSettings h in
  let settings' := LlamaCpp.settings (fst result) in
  (settings' ∉ dom h)
  /\ (forall key : string,
        default ∅ (snd result !! settings') !! key
        = match default ∅ (h !! additionalSettings) !! key with
          | Some v => Some v
          | None => default ∅ (h !! LlamaCpp.settings this) !! key
          end)
  /\ (forall l : positive, l ∈ dom h -> snd result !! l = h !! l).
Proof.
  intros this additional h Hthis Hadd result settings'.
  pose proof (newObject_fresh h) as Hfresh.
  subst result settings'. unfold LlamaCpp.withSettings.
  unfold LlamaCpp.newObject in *. cbv beta iota zeta in *. cbn [fst snd] in *.
  set (l := fresh (dom h)) in *.
  assert (Hne1 : LlamaCpp.settings this <> l)
    by (intros Heq; rewrite Heq in Hthis; done).
  assert (Hne2 : additional <> l) by (intros ->; done).
  rewrite objectAssign_two by done.
  rewrite !lookup_insert_ne by done. rewrite lookup_insert_eq. simpl.
  split; [done|]. split.
  - intros key. rewrite lookup_insert_eq. simpl.
    rewrite !lookup_union, lookup_empty.
    destruct (default ∅ (h !! additional) !! key);
      destruct (default ∅ (h !! LlamaCpp.settings this) !! key); done.
  - intros l' Hl'. assert (l <> l') by (intros Heq; by rewrite <- Heq in Hl').
    by rewrite !lookup_insert_ne.
Qed.

Lemma withSettings_overrides_and_frames_witness :
  let result :=
    LlamaCpp.withSettings Examples.settingsModel 2%positive
      Examples.settingsHeap in
  (LlamaCpp.settings (fst result) ∉ dom Examples.settingsHeap)
  /\ (forall key : string,
        default ∅ (snd result !! LlamaCpp.settings (fst result)) !! key
        = match default ∅ (Examples.settingsHeap !! 2%positive) !! key with
          | Some v => Some v
          | None =>
              default ∅ (Examples.settingsHeap
                           !! LlamaCpp.settings Examples.settingsModel) !! key
          end)
  /\ (forall l : positive,
        l ∈ dom Examples.settingsHeap ->
        snd result !! l = Examples.settingsHeap !! l).
Proof.
  refine (withSettings_overrides_and_frames Examples.settingsModel 2%positive
            Examples.settingsHeap _ _).
  - apply elem_of_dom. eexists. reflexivity.
  - apply elem_of_dom. eexists. reflexivity.
Defined.
(** ** The generate pipeline *)

Section NotifyFacts.

Context {PROMPT_TYPE RAW_OUTPUT GENERATED_OUTPUT OUTPUT : Type}.

Implicit Types
  (callback : option (Generate.Callback PROMPT_TYPE RAW_OUTPUT
                        GENERATED_OUTPUT OUTPUT))
  (event : Generate.GenerateCallEvent PROMPT_TYPE RAW_OUTPUT
             GENERATED_OUTPUT OUTPUT).

(** Whatever the callback does, the event has been handed to it. *)
Lemma notify_delivers callback observer event :
  snd (Generate.notify callback observer event)
  = Props.handedTo callback observer event.
Proof. by destruct callback. Qed.

(** When both notifications return, both observers have the event. *)
Lemma notifyBoth_returned callback1 callback2 event u delivered :
  Generate.notifyBoth callback1 callback2 event = (Returned u, delivered) ->
  delivered
  = Props.handedTo callback1 Generate.OptionsObserver event
    ++ Props.handedTo callback2 Generate.ContextObserver event.
Proof.
  unfold Generate.notifyBoth.
  rewrite <- (notify_delivers callback1), <- (notify_delivers callback2).
  destruct (Generate.notify callback1 _ event) as [[u1|e] t1]; [|done].
  destruct (Generate.notify callback2 _ event) as [c2 t2].
  by intros [= -> <-].
Qed.

(** Callbacks that return let the notification return. *)
Lemma notifyBoth_returns callback1 callback2 event :
  Props.returns callback1 -> Props.returns callback2 ->
  Generate.notifyBoth callback1 callback2 event
  = (Returned tt,
     Props.handedTo callback1 Generate.OptionsObserver event
     ++ Props.handedTo callback2 Generate.ContextObserver event).
Proof.
  intros H1 H2. unfold Generate.notifyBoth, Generate.notify.
  destruct callback1 as [call1|], callback2 as [call2|]; simpl;
    rewrite ?(H1 call1 event eq_refl), ?(H2 call2 event eq_refl); done.
Qed.

(** The events an observer counts in a trace of the bracketed form. *)
Lemma bracketed_counts callback1 callback2 callback3 callback4 start metadata
  input payload :
  let trace :=
    (Props.handedTo callback1 Generate.OptionsObserver
       (Generate.GenerateStart start input)
     ++ Props.handedTo callback2 Generate.ContextObserver
          (Generate.GenerateStart start input))
    ++ [Generate.RetryCall]
    ++ (Props.handedTo callback3 Generate.OptionsObserver
          (Generate.GenerateEnd metadata input payload)
        ++ Props.handedTo callback4 Generate.ContextObserver
             (Generate.GenerateEnd metadata input payload)) in
  length (Props.startEvents Generate.OptionsObserver trace)
  = (if Props.registered callback1 then 1 else 0)%nat
  /\ length (Props.endEvents Generate.OptionsObserver trace)
     = (if Props.registered callback3 then 1 else 0)%nat
  /\ length (Props.startEvents Generate.ContextObserver trace)
     = (if Props.registered callback2 then 1 else 0)%nat
  /\ length (Props.endEvents Generate.ContextObserver trace)
     = (if Props.registered callback4 then 1 else 0)%nat.
Proof.
  by destruct callback1, callback2, callback3, callback4.
Qed.

End NotifyFacts.

(** C4, for observers that return.  The three outcomes of the retry
    function give three different results: an abort gives
    [{ ok: false, isAborted: true }] without an error and makes [generate]
    throw an [AbortError]; a failure gives
    [{ ok: false, isAborted: false, error }] with the error of the outcome,
    which [generate] throws; and a result with [ok: true] comes from a
    success only. *)
Theorem generate_terminal_states :
  forall (W INPUT PROMPT_TYPE RAW_OUTPUT GENERATED_OUTPUT OUTPUT : Type)
    (defaultMaxTries : nat)
    (options : Generate.GenerateOptions W INPUT PROMPT_TYPE RAW_OUTPUT
                 GENERATED_OUTPUT OUTPUT)
    (context : option (Generate.RunContext PROMPT_TYPE RAW_OUTPUT
                         GENERATED_OUTPUT OUTPUT))
    (env : Environment) (w w1 w2 : W)
    (expandedPrompt : PROMPT_TYPE) (outcome : Retry.RetryOutcome RAW_OUTPUT),
  Props.callbacksReturn options context ->
  Generate.prompt options (Generate.input options) w
  = (Returned expandedPrompt, w1) ->
  default (Retry.retryWithExponentialBackoff defaultMaxTries)
    (Generate.retry options) RAW_OUTPUT
    (Generate.modelGenerate (Generate.optModel options) expandedPrompt
       (context ≫= Generate.abortSignal)) w1
  = (outcome, w2) ->
  match outcome with
  | Retry.Abort =>
      exists trace,
        Generate.safeGenerate defaultMaxTries options context env w
        = (Returned (Generate.NotOk true None), trace, w2)
        /\ Generate.generate defaultMaxTries options context env w
           = (Threw (AbortError "The generation was aborted."), trace, w2)
  | Retry.Failure error =>
      exists trace,
        Generate.safeGenerate defaultMaxTries options context env w
        = (Returned (Generate.NotOk false (Some error)), trace, w2)
        /\ Generate.generate defaultMaxTries options context env w
           = (Threw error, trace, w2)
  | Retry.Success _ _ =>
      forall result trace w',
        Generate.safeGenerate defaultMaxTries options context env w
        = (Returned result, trace, w') ->
        exists output,
          result = Generate.Ok output
          /\ Generate.generate defaultMaxTries options context env w
             = (Returned output, trace, w')
  end
  /\ (forall result trace w',
        Generate.safeGenerate defaultMaxTries options context env w
        = (Returned result, trace, w') ->
        Generate.ok result = true ->
        exists raw tries, outcome = Retry.Success raw tries).
Proof.
  intros W INPUT P R G O n options context env w w1 w2 ep outcome
    (Hstart1 & Hstart2 & Hend1 & Hend2) Hp Hr.
  unfold Generate.generate, Generate.safeGenerate.
  rewrite Hp. cbv zeta.
  unfold Generate.notifyStart, Generate.notifyEnd.
  rewrite (notifyBoth_returns _ _ _ Hstart1 Hstart2). rewrite Hr.
  destruct outcome as [raw tries|error|].
  - split; [|eauto].
    intros result trace w'.
    destruct (default _ (Generate.extractOutput options) raw w2)
      as [[extracted|e] w3]; [|intros [=]].
    destruct (Generate.processOutput options extracted w3)
      as [[processed|e] w4]; [|intros [=]].
    rewrite (notifyBoth_returns _ _ _ Hend1 Hend2).
    intros [= <- <- <-]. eauto.
  - rewrite (notifyBoth_returns _ _ _ Hend1 Hend2).
    split; [eauto|]. intros result trace w' [= <- <- <-]. done.
  - rewrite (notifyBoth_returns _ _ _ Hend1 Hend2).
    split; [eauto|]. intros result trace w' [= <- <- <-]. done.
Qed.

Lemma generate_terminal_states_witness :
  exists trace,
    Generate.safeGenerate 3 Examples.abortedOptions None
      Examples.environment tt
    = (Returned (Generate.NotOk true None), trace, tt)
    /\ Generate.generate 3 Examples.abortedOptions None
         Examples.environment tt
       = (Threw (AbortError "The generation was aborted."), trace, tt).
Proof.
  refine (proj1 (generate_terminal_states unit jsstring jsstring jsstring
            jsstring jsstring 3 Examples.abortedOptions None
            Examples.environment tt tt tt (lit "prompt") Retry.Abort _ _ _)).
  - repeat split; intros call event [= <-]; reflexivity || discriminate.
  - reflexivity.
  - reflexivity.
Defined.

(** C4, as stated, fails when an observer throws.  The retry function
    reports an abort, the [onCallEnd] callback of the options throws on the
    end event it is handed, and neither does [safeGenerate] give an aborted
    result nor does [generate] throw an [AbortError]: both throw the error
    of the callback. *)
Lemma generate_abort_observer_throws :
  Retry.retryWithExponentialBackoff 3 jsstring
    (Generate.modelGenerate Examples.abortedModel (lit "prompt") None) tt
  = (Retry.Abort, tt)
  /\ exists trace,
       Generate.safeGenerate 3 Examples.abortedOptionsFailingObserver None
         Examples.environment tt
       = (Threw (OtherError "observer failed"), trace, tt)
       /\ Generate.generate 3 Examples.abortedOptionsFailingObserver None
            Examples.environment tt
          = (Threw (OtherError "observer failed"), trace, tt)
       /\ length (Props.endEvents Generate.OptionsObserver trace) = 1%nat.
Proof.
  split; [reflexivity|].
  eexists. split; [vm_compute; reflexivity|]. split; reflexivity.
Qed.

(** C6, as the code has it.  A call of [safeGenerate] that returns a
    result has handed, to every registered observer, exactly one start event
    before the retried model call and exactly one end event after it, and
    the status of the end event agrees with the result. *)
Theorem safeGenerate_events :
  forall (W INPUT PROMPT_TYPE RAW_OUTPUT GENERATED_OUTPUT OUTPUT : Type)
    (defaultMaxTries : nat)
    (options : Generate.GenerateOptions W INPUT PROMPT_TYPE RAW_OUTPUT
                 GENERATED_OUTPUT OUTPUT)
    (context : option (Generate.RunContext PROMPT_TYPE RAW_OUTPUT
                         GENERATED_OUTPUT OUTPUT))
    (env : Environment) (w w' : W) result trace,
  Generate.safeGenerate defaultMaxTries options context env w
  = (Returned result, trace, w') ->
  Props.bracketed options context trace result
  /\ length (Props.startEvents Generate.OptionsObserver trace)
     = (if Props.registered (Generate.onCallStart options)
        then 1 else 0)%nat
  /\ length (Props.endEvents Generate.OptionsObserver trace)
     = (if Props.registered (Generate.onCallEnd options) then 1 else 0)%nat
  /\ length (Props.startEvents Generate.ContextObserver trace)
     = (if Props.registered (context ≫= Generate.contextOnCallStart)
        then 1 else 0)%nat
  /\ length (Props.endEvents Generate.ContextObserver trace)
     = (if Props.registered (context ≫= Generate.contextOnCallEnd)
        then 1 else 0)%nat.
Proof.
  intros W INPUT P R G O n options context env w w' result trace.
  unfold Generate.safeGenerate.
  destruct (Generate.prompt options (Generate.input options) w)
    as [[ep|e] w1]; [|intros [=]].
  cbv zeta. unfold Generate.notifyStart, Generate.notifyEnd.
  destruct (Generate.notifyBoth (Generate.onCallStart options) _ _)
    as [[u|e] started] eqn:Hstarted; [|intros [=]].
  apply notifyBoth_returned in Hstarted. subst started.
  destruct (default _ (Generate.retry options) R _ w1) as [outcome w2].
  unfold Generate.returnAfter.
  destruct outcome as [raw tries|error|].
  - destruct (default _ (Generate.extractOutput options) raw w2)
      as [[extracted|e] w3]; [|intros [=]].
    destruct (Generate.processOutput options extracted w3)
      as [[processed|e] w4]; [|intros [=]].
    destruct (Generate.notifyBoth (Generate.onCallEnd options) _ _)
      as [[u'|e] ended] eqn:Hended; [|intros [=]].
    apply notifyBoth_returned in Hended. subst ended.
    intros [= <- <- <-]. rewrite <- app_assoc.
    split; [|apply bracketed_counts].
    eexists _, _, _, _. split; [reflexivity|]. done.
  - destruct (Generate.notifyBoth (Generate.onCallEnd options) _ _)
      as [[u'|e] ended] eqn:Hended; [|intros [=]].
    apply notifyBoth_returned in Hended. subst ended.
    intros [= <- <- <-]. rewrite <- app_assoc.
    split; [|apply bracketed_counts].
    eexists _, _, _, _. split; [reflexivity|]. done.
  - destruct (Generate.notifyBoth (Generate.onCallEnd options) _ _)
      as [[u'|e] ended] eqn:Hended; [|intros [=]].
    apply notifyBoth_returned in Hended. subst ended.
    intros [= <- <- <-]. rewrite <- app_assoc.
    split; [|apply bracketed_counts].
    eexists _, _, _, _. split; [reflexivity|]. done.
Qed.

Lemma safeGenerate_events_witness :
  exists trace,
    Props.bracketed Examples.passingOptions None trace
      (Generate.Ok (lit "raw")).
Proof.
  eexists.
  refine (proj1 (safeGenerate_events unit jsstring jsstring jsstring jsstring
            jsstring 3 Examples.passingOptions None Examples.environment
            tt tt _ _ _)).
  vm_compute. reflexivity.
Defined.

(** C6, as stated, fails when the output processor throws after a
    successful model call: the observer, registered for both events, has
    received the start event and no end event, and the call throws. *)
Lemma safeGenerate_no_end_event :
  exists trace,
    Generate.safeGenerate 3 Examples.throwingOptions None
      Examples.environment tt
    = (Threw (OtherError "invalid output"), trace, tt)
    /\ Props.registered (Generate.onCallEnd Examples.throwingOptions) = true
    /\ length (Props.startEvents Generate.OptionsObserver trace) = 1%nat
    /\ length (Props.endEvents Generate.OptionsObserver trace) = 0%nat
    /\ length (Props.endEvents Generate.OptionsObserver trace) <> 1%nat.
Proof.
  eexists. split; [vm_compute; reflexivity|]. repeat split. done.
Qed.

(** ** The llama.cpp delta queue and the retried request *)

Section DeltaQueueFacts.

Import Stream LlamaCpp.

Variable rejected : RejectedPush.

Lemma pushTo_open {A : Type} (q : AsyncQueue.t A) (item : A) :
  AsyncQueue.closed q = false ->
  pushTo rejected q item
  = (Returned tt,
     AsyncQueue.Make (AsyncQueue.values q ++ [item]) false
       (AsyncQueue.terminalError q)).
Proof. intros H. unfold pushTo, AsyncQueue.push. by rewrite H. Qed.

(** On a closed queue nothing is added, whether the push raises or not. *)
Lemma pushErrorAndClose_closed (error : JsError)
  (q : AsyncQueue.t (Delta LlamaCppTextStreamChunk)) :
  AsyncQueue.closed q = true ->
  snd (pushErrorAndClose rejected error q) = q.
Proof.
  intros H. unfold pushErrorAndClose, pushTo, AsyncQueue.push. rewrite H.
  destruct rejected; [|done]. destruct q as [vs cl err]. simpl in *.
  by subst cl.
Qed.

(** Reading stops at the first error; while no chunk has had [stop] set,
    the queue is open and holds the chunks read. *)
Lemma forAwaitEvents_until_error (events : list SseEvent)
  (failure : option JsError) :
  forall chunks error q,
  streamError events failure = Some (chunks, error) ->
  Forall (fun c => stop c = false) chunks ->
  AsyncQueue.closed q = false ->
  forAwaitEvents rejected events failure q
  = (Threw error,
     AsyncQueue.Make (AsyncQueue.values q ++ map DeltaValue chunks) false
       (AsyncQueue.terminalError q)).
Proof.
  induction events as [|event events IH]; intros chunks error q Herr Hopen Hq.
  - simpl in *. destruct failure as [e|]; [|done].
    injection Herr as <- <-. simpl. rewrite app_nil_r.
    destruct q; simpl in *; by subst.
  - destruct event as [eventData|e]; simpl in Herr.
    + destruct (streamError events failure) as [[chunks' error']|] eqn:Hrest;
        [|done].
      injection Herr as <- <-. inversion Hopen as [|? ? Hstop Hopen']; subst.
      cbn [forAwaitEvents]. rewrite pushTo_open by done. rewrite Hstop.
      erewrite IH; [|reflexivity|exact Hopen'|reflexivity]. simpl.
      by rewrite <- app_assoc.
    + injection Herr as <- <-. simpl. rewrite app_nil_r.
      destruct q; simpl in *; by subst.
Qed.

(** An error before any chunk with [stop] set ends up on the queue, once,
    behind the chunks read, and the queue is closed. *)
Lemma queue_of_failing_stream (events : list SseEvent)
  (failure : option JsError) chunks error :
  streamError events failure = Some (chunks, error) ->
  Forall (fun c => stop c = false) chunks ->
  createLlamaCppFullDeltaIterableQueue rejected (BodyEvents events failure)
  = AsyncQueue.Make (map DeltaValue chunks ++ [DeltaError error]) true None.
Proof.
  intros Herr Hopen. unfold createLlamaCppFullDeltaIterableQueue.
  rewrite (forAwaitEvents_until_error events failure chunks error
             AsyncQueue.empty Herr Hopen eq_refl).
  unfold pushErrorAndClose. rewrite pushTo_open by done. done.
Qed.

Lemma queue_of_unreadable_stream (error : JsError) :
  createLlamaCppFullDeltaIterableQueue rejected (BodyUnreadable error)
  = AsyncQueue.Make [DeltaError error] true None.
Proof. done. Qed.

Variable defaultApiConfiguration : Api.BaseUrlApiConfiguration Network.
Variable h : Heap.
Variable this : LlamaCppCompletionModel.
Variable prompt : LlamaCppCompletionPrompt.
Variable options : option FunctionOptions.

Hypothesis not_aborted :
  default false (aborted <$> ((options ≫= run) ≫= abortSignal)) = false.

(** On an established connection the request returns the queue, whatever
    the body holds. *)
Lemma completionRequest_established (net : Network) response rest :
  exchanges net = ConnectionEstablished response :: rest ->
  completionRequest defaultApiConfiguration h this prompt
    (deltaIterable rejected) options net
  = (Returned (createLlamaCppFullDeltaIterableQueue rejected (body response)),
     {| exchanges := rest; requests := requests net
                  ++ [streamingRequest defaultApiConfiguration h this prompt] |}).
Proof.
  intros Hnet. unfold completionRequest, postJsonToApi.
  rewrite not_aborted, Hnet. done.
Qed.

Lemma completionRequest_refused (net : Network) error rest :
  exchanges net = ConnectionFailed error :: rest ->
  completionRequest defaultApiConfiguration h this prompt
    (deltaIterable rejected) options net
  = (Threw error,
     {| exchanges := rest; requests := requests net
                  ++ [streamingRequest defaultApiConfiguration h this prompt] |}).
Proof.
  intros Hnet. unfold completionRequest, postJsonToApi.
  rewrite not_aborted, Hnet. done.
Qed.

(** The retry loop sends one request for every refused connection and one
    for the connection that is established, and none after that. *)
Lemma retryLoop_connects (refusals : list string) :
  forall remaining tries net response rest,
  (length refusals < remaining)%nat ->
  exchanges net
  = map (fun m => ConnectionFailed (ApiCallError true m)) refusals
    ++ ConnectionEstablished response :: rest ->
  Retry.retryLoop remaining tries
    (completionRequest defaultApiConfiguration h this prompt
       (deltaIterable rejected) options) net
  = (Retry.Success
       (createLlamaCppFullDeltaIterableQueue rejected (body response))
       (S (tries + length refusals)),
     {| exchanges := rest;
        requests :=
          requests net
          ++ repeat (streamingRequest defaultApiConfiguration h this prompt)
               (S (length refusals)) |}).
Proof.
  induction refusals as [|m refusals IH];
    intros remaining tries net response rest Hlt Hnet.
  - destruct remaining as [|remaining]; [simpl in Hlt; lia|].
    simpl in Hnet. cbn [Retry.retryLoop].
    rewrite (completionRequest_established net response rest Hnet).
    simpl. by rewrite Nat.add_0_r.
  - destruct remaining as [|remaining]; [simpl in Hlt; lia|].
    simpl in Hnet, Hlt. cbn [Retry.retryLoop].
    rewrite (completionRequest_refused net _ _ Hnet).
    destruct remaining as [|remaining]; [lia|].
    rewrite (IH (S remaining) (S tries) _ response rest); [|lia|done].
    cbn [requests length repeat]. rewrite <- app_assoc. simpl.
    do 3 f_equal. lia.
Qed.

End DeltaQueueFacts.

(** C3, as the code has it.  Only the request that establishes the
    connection is handed to the retry and throttle layer: it returns the
    delta queue as soon as the connection is established, whatever the
    body holds, so that a streaming call sends one request for every
    refused connection and one for the established one.  An error that ends
    the reading of the body before a chunk with [stop] set has closed the
    queue is put on the queue once, behind the chunks read, and the queue
    is closed. *)
Theorem doStreamText_retries_connection_only :
  forall (rejected : LlamaCpp.RejectedPush)
    (defaultApiConfiguration : Api.BaseUrlApiConfiguration LlamaCpp.Network)
    (h : LlamaCpp.Heap) (this : LlamaCpp.LlamaCppCompletionModel)
    (prompt : LlamaCpp.LlamaCppCompletionPrompt)
    (options : option Stream.FunctionOptions),
  let api :=
    default defaultApiConfiguration
      (LlamaCpp.settingsApi h (LlamaCpp.settings this)) in
  let request :=
    LlamaCpp.streamingRequest defaultApiConfiguration h this prompt in
  let queueOf :=
    LlamaCpp.createLlamaCppFullDeltaIterableQueue rejected in
  default false (aborted <$> ((options ≫= Stream.run) ≫= Stream.abortSignal))
  = false ->
  (* the call under the retry layer, for any policy and any body *)
  (forall net response rest,
     LlamaCpp.exchanges net = LlamaCpp.ConnectionEstablished response :: rest ->
     LlamaCpp.completionRequest defaultApiConfiguration h this prompt
       (LlamaCpp.deltaIterable rejected) options net
     = (Returned (queueOf (LlamaCpp.body response)),
        {| LlamaCpp.exchanges := rest;
           LlamaCpp.requests := LlamaCpp.requests net ++ [request] |}))
  (* the requests of a call under the retry policy of the specification *)
  /\ (forall maxTries refusals net response rest,
        Api.retry api = Retry.retryWithExponentialBackoff maxTries ->
        Api.throttle api = Retry.throttleOff ->
        (length refusals < maxTries)%nat ->
        LlamaCpp.exchanges net
        = map (fun m => LlamaCpp.ConnectionFailed (ApiCallError true m))
            refusals
          ++ LlamaCpp.ConnectionEstablished response :: rest ->
        LlamaCpp.doStreamText rejected defaultApiConfiguration h this prompt
          options net
        = (Returned (queueOf (LlamaCpp.body response)),
           {| LlamaCpp.exchanges := rest;
              LlamaCpp.requests :=
                LlamaCpp.requests net
                ++ repeat request (S (length refusals)) |}))
  (* the queue of a body whose reading fails *)
  /\ (forall events failure chunks error,
        LlamaCpp.streamError events failure = Some (chunks, error) ->
        Forall (fun c => LlamaCpp.stop c = false) chunks ->
        queueOf (LlamaCpp.BodyEvents events failure)
        = AsyncQueue.Make
            (map Stream.DeltaValue chunks ++ [Stream.DeltaError error])
            true None)
  /\ (forall error,
        queueOf (LlamaCpp.BodyUnreadable error)
        = AsyncQueue.Make [Stream.DeltaError error] true None).
Proof.
  intros rejected defaultApi h this prompt options api request queueOf
    Hsignal.
  split; [|split; [|split]].
  - intros net response rest Hnet.
    exact (completionRequest_established rejected defaultApi h this prompt
             options Hsignal net response rest Hnet).
  - intros maxTries refusals net response rest Hretry Hthrottle Hlt Hnet.
    unfold LlamaCpp.doStreamText, LlamaCpp.callAPI,
      Retry.callWithRetryAndThrottle.
    fold api. rewrite Hretry, Hthrottle.
    unfold Retry.throttleOff, Retry.retryWithExponentialBackoff.
    by rewrite (retryLoop_connects rejected defaultApi h this prompt options
                  Hsignal refusals maxTries 0 net response rest Hlt Hnet).
  - intros events failure chunks error Herr Hopen.
    by apply queue_of_failing_stream.
  - done.
Qed.

(** The example: one refused connection, then a body that breaks after two
    chunks; two requests are sent, the third exchange is left, and the
    queue holds the two chunks and the error. *)
Lemma doStreamText_retries_connection_only_witness :
  LlamaCpp.doStreamText LlamaCpp.Raises Examples.localApi Examples.apiHeap
    Examples.apiModel Examples.storyPrompt None Examples.flakyNetwork
  = (Returned
       (LlamaCpp.createLlamaCppFullDeltaIterableQueue LlamaCpp.Raises
          Examples.brokenBody),
     {| LlamaCpp.exchanges :=
          [LlamaCpp.ConnectionEstablished
             {| LlamaCpp.body := Examples.brokenBody |}];
        LlamaCpp.requests :=
          repeat
            (LlamaCpp.streamingRequest Examples.localApi Examples.apiHeap
               Examples.apiModel Examples.storyPrompt) 2 |})
  /\ LlamaCpp.createLlamaCppFullDeltaIterableQueue LlamaCpp.Raises
       Examples.brokenBody
     = AsyncQueue.Make
         [Stream.DeltaValue (Examples.chunk "a" false);
          Stream.DeltaValue (Examples.chunk "b" false);
          Stream.DeltaError Examples.malformed]
         true None.
Proof.
  pose proof (doStreamText_retries_connection_only LlamaCpp.Raises
    Examples.localApi Examples.apiHeap Examples.apiModel Examples.storyPrompt
    None eq_refl) as (_ & Hcall & Hqueue & _).
  split.
  - refine (Hcall 3%nat ["503"%string] Examples.flakyNetwork
              {| LlamaCpp.body := Examples.brokenBody |}
              [LlamaCpp.ConnectionEstablished
                 {| LlamaCpp.body := Examples.brokenBody |}] _ _ _ _).
    + reflexivity.
    + reflexivity.
    + simpl. lia.
    + reflexivity.
  - refine (Hqueue _ None
              [Examples.chunk "a" false; Examples.chunk "b" false]
              Examples.malformed _ _).
    + reflexivity.
    + repeat constructor.
Defined.

(** C3, as stated, fails for an error behind the final chunk: the chunk
    with [stop] set has closed the queue, the push of the error is
    rejected, and the queue holds no error element, whether a rejected push
    raises or not. *)
Lemma error_after_stop_not_on_queue :
  LlamaCpp.streamError
    [LlamaCpp.ValidEvent (Examples.chunk "a" false);
     LlamaCpp.ValidEvent (Examples.chunk "b" true);
     LlamaCpp.InvalidEvent Examples.malformed] None
  = Some ([Examples.chunk "a" false; Examples.chunk "b" true],
          Examples.malformed)
  /\ (forall rejected,
        LlamaCpp.createLlamaCppFullDeltaIterableQueue rejected
          Examples.brokenAfterStop
        = AsyncQueue.Make
            [Stream.DeltaValue (Examples.chunk "a" false);
             Stream.DeltaValue (Examples.chunk "b" true)]
            true None)
  /\ (forall rejected,
        ~ In (Stream.DeltaError Examples.malformed)
            (AsyncQueue.values
               (LlamaCpp.createLlamaCppFullDeltaIterableQueue rejected
                  Examples.brokenAfterStop))).
Proof.
  split; [reflexivity|]. split.
  - intros []; reflexivity.
  - intros [] Hin; vm_compute in Hin; intuition discriminate.
Qed.

(** * Further properties *)

(** ** streamText: what the trimming does and does not do *)

Section TrimmingMore.

Import Stream StreamText Props.

Lemma trimStart_black (s : jsstring) :
  forallb isWhiteSpace s = false ->
  exists c t, trimStart s = c :: t /\ isWhiteSpace c = false.
Proof.
  induction s as [|c s IH]; simpl; [done|].
  destruct (isWhiteSpace c) eqn:Hc; simpl; eauto.
Qed.

Lemma trimEnd_keeps_black_start (c : N) (s : jsstring) :
  isWhiteSpace c = false -> exists t, trimEnd (c :: s) = c :: t.
Proof.
  intros Hc. change (c :: s) with ([c] ++ s). rewrite trimEnd_app.
  destruct (forallb isWhiteSpace s).
  - exists []. unfold trimEnd. simpl. by rewrite Hc.
  - by exists (trimEnd s).
Qed.

Context {W PROMPT RAW : Type}.
Variable model : TextStreamingModel W PROMPT RAW.

Lemma fragments_nonempty (raws : list RAW) :
  Forall (fun f => f <> []) (fragments model raws).
Proof.
  induction raws as [|raw raws IH]; [constructor|].
  rewrite fragments_cons.
  destruct (extractTextDelta model raw) as [[|c t]|]; simpl; [done| |done].
  by constructor.
Qed.

(** The deltas count only by their non-empty text: the raw values can be
    replaced by the fragments themselves. *)
Lemma iterate_fragments (shouldTrimWhitespace : bool) (raws : list RAW)
  (c : Closure) :
  iterate (processDelta model shouldTrimWhitespace) (map DeltaValue raws) c
  = iterate (processDelta (Examples.scriptedTextModel None [])
               shouldTrimWhitespace)
      (map DeltaValue (fragments model raws)) c.
Proof.
  revert c. induction raws as [|raw raws IH]; intros c; [done|].
  rewrite fragments_cons. cbn [map iterate]. unfold processDelta at 1.
  destruct (extractTextDelta model raw) as [textDelta|].
  2:{ rewrite IH.
      by destruct (iterate _ (map DeltaValue (fragments model raws)) c)
        as [[more fin] c']. }
  destruct (length textDelta =? 0)%nat eqn:Hlen.
  { rewrite IH.
    by destruct (iterate _ (map DeltaValue (fragments model raws)) c)
      as [[more fin] c']. }
  cbn [map iterate]. unfold processDelta at 2.
  change (extractTextDelta (Examples.scriptedTextModel None []) textDelta)
    with (Some textDelta).
  cbv beta iota. rewrite Hlen.
  destruct (if shouldTrimWhitespace then _ else _) as [t trailing].
  by rewrite IH.
Qed.

Lemma emitted_untrimmed (raws : list RAW) :
  emitted model false raws = fragments model raws.
Proof.
  unfold emitted, afterDeltas. generalize initial.
  induction raws as [|raw raws IH]; intros c; [done|].
  rewrite fragments_cons. cbn [map iterate]. unfold processDelta at 1.
  destruct (extractTextDelta model raw) as [textDelta|].
  2:{ specialize (IH c).
      by destruct (iterate _ (map DeltaValue raws) c) as [[more fin] c']. }
  destruct (length textDelta =? 0)%nat eqn:Hlen.
  { specialize (IH c).
    by destruct (iterate _ (map DeltaValue raws) c) as [[more fin] c']. }
  match goal with
  | |- context [iterate _ (map DeltaValue raws) ?c1] => specialize (IH c1);
      destruct (iterate _ (map DeltaValue raws) c1) as [[more fin] c']
  end.
  simpl in *. by rewrite IH.
Qed.

End TrimmingMore.

(** X1.  With trimming, the text surfaced never ends in white space, and
    it does not start with white space either when the first non-empty
    fragment holds a character that is not white space. *)
Theorem streamText_text_is_trimmed :
  forall (W PROMPT RAW : Type)
    (model : StreamText.TextStreamingModel W PROMPT RAW) (raws : list RAW),
  let text := concat (Props.emitted model true raws) in
  trimEnd text = text
  /\ (forall first others,
        Props.fragments model raws = first :: others ->
        forallb isWhiteSpace first = false ->
        trimStart text = text).
Proof.
  intros W PROMPT RAW model raws text.
  destruct (afterDeltas_invariant model raws)
    as (Hjoin & Hws & Hall & _).
  split; [by apply trimEnd_concat|].
  intros first others Hfrags Hblack.
  assert (Htext : text = trimEnd (Props.joined (Props.fragments model raws))).
  { eapply trimEnd_unique; [exact Hjoin|by apply trimEnd_concat|exact Hws]. }
  rewrite Hfrags in Htext. simpl in Htext.
  destruct (trimStart_black first Hblack) as (c & t & Hstart & Hc).
  rewrite Hstart in Htext. simpl in Htext.
  destruct (trimEnd_keeps_black_start c (t ++ concat others) Hc) as [t' Ht'].
  rewrite Htext, Ht'. simpl. by rewrite Hc.
Qed.

Lemma streamText_text_is_trimmed_witness :
  let text :=
    concat (Props.emitted (Examples.scriptedTextModel None []) true
              Examples.helloWorld) in
  trimStart text = text.
Proof.
  intros text.
  refine (proj2 (streamText_text_is_trimmed unit unit jsstring
            (Examples.scriptedTextModel None []) Examples.helloWorld)
            (lit " Hello") [lit " world "] _ _); reflexivity.
Defined.

(** X2.  When the first non-empty fragment is white space only, it is
    surfaced as the empty string, and the leading white space of the
    fragments after it is kept: the text is the concatenation of the other
    fragments without its trailing white space. *)
Theorem streamText_blank_first_fragment :
  forall (W PROMPT RAW : Type)
    (model : StreamText.TextStreamingModel W PROMPT RAW) (raws : list RAW)
    (first : jsstring) (others : list jsstring),
  Props.fragments model raws = first :: others ->
  forallb isWhiteSpace first = true ->
  (exists later, Props.emitted model true raws = [] :: later)
  /\ concat (Props.emitted model true raws) = trimEnd (concat others).
Proof.
  intros W PROMPT RAW model raws first others Hfrags Hblank.
  split.
  - unfold Props.emitted, Props.afterDeltas.
    rewrite iterate_fragments, Hfrags.
    pose proof (fragments_nonempty model raws) as Hne.
    rewrite Hfrags in Hne. inversion Hne as [|? ? Hfirst _]; subst.
    cbn [map Stream.iterate]. unfold StreamText.processDelta at 1.
    change (StreamText.extractTextDelta (Examples.scriptedTextModel None [])
              first) with (Some first).
    cbv beta iota.
    destruct first as [|ch rest]; [done|].
    cbn [length Nat.eqb StreamText.isFirstDelta StreamText.initial].
    rewrite (trimStart_whitespace _ Hblank).
    destruct (Stream.iterate _ (map Stream.DeltaValue others) _)
      as [[more fin] c'].
    by exists more.
  - destruct (afterDeltas_invariant model raws)
      as (Hjoin & Hws & Hall & _).
    rewrite Hfrags in Hjoin. simpl in Hjoin.
    rewrite (trimStart_whitespace _ Hblank) in Hjoin.
    eapply trimEnd_unique; [exact Hjoin|by apply trimEnd_concat|exact Hws].
Qed.

Lemma streamText_blank_first_fragment_witness :
  concat (Props.emitted (Examples.scriptedTextModel None []) true
            [lit "  "; lit " Hello "])
  = trimEnd (concat [lit " Hello "]).
Proof.
  refine (proj2 (streamText_blank_first_fragment unit unit jsstring
            (Examples.scriptedTextModel None []) [lit "  "; lit " Hello "]
            (lit "  ") [lit " Hello "] _ _)); reflexivity.
Defined.

(** X3.  With [trimWhitespace: false] the stream of [streamText] yields
    exactly the non-empty extracted fragments, unchanged and in order. *)
Theorem streamText_without_trimming :
  forall (W PROMPT RAW : Type)
    (model : StreamText.TextStreamingModel W PROMPT RAW) (raws : list RAW)
    (prompt : PROMPT) (options : option Stream.FunctionOptions)
    (env : Environment) (w w' : W),
  StreamText.trimWhitespace model = Some false ->
  StreamText.doStreamText model prompt options w
  = (Returned (map Stream.DeltaValue raws), w') ->
  exists result events,
    StreamText.streamText model prompt options env w
    = (Returned result, events, w')
    /\ StreamText.streamOf result
       = {| Stream.items := Props.fragments model raws;
            Stream.ending := Stream.EndOfStream |}.
Proof.
  intros W PROMPT RAW model raws prompt options env w w' Htrim Hstart.
  unfold StreamText.streamText, Stream.executeStreamCall.
  rewrite Hstart, Htrim. simpl default.
  pose proof (iterate_values_end (StreamText.processDelta model false) raws
                StreamText.initial) as Hend.
  pose proof (emitted_untrimmed model raws) as Hout.
  unfold Props.emitted, Props.afterDeltas in Hout.
  destruct (Stream.iterate _ (map Stream.DeltaValue raws) StreamText.initial)
    as [[o fin] c'].
  simpl in Hend, Hout. subst fin o.
  eexists _, _. split; [reflexivity|].
  destruct (Stream.wantsFullResponse options); done.
Qed.

Lemma streamText_without_trimming_witness :
  exists result events,
    StreamText.streamText
      (Examples.scriptedTextModel (Some false)
         (map Stream.DeltaValue Examples.helloWorld))
      tt None Examples.environment tt
    = (Returned result, events, tt)
    /\ StreamText.streamOf result
       = {| Stream.items :=
              Props.fragments
                (Examples.scriptedTextModel (Some false)
                   (map Stream.DeltaValue Examples.helloWorld))
                Examples.helloWorld;
            Stream.ending := Stream.EndOfStream |}.
Proof.
  refine (streamText_without_trimming unit unit jsstring
            (Examples.scriptedTextModel (Some false)
               (map Stream.DeltaValue Examples.helloWorld))
            Examples.helloWorld tt None Examples.environment tt tt _ _);
    reflexivity.
Defined.

(** X4.  Deltas without text and deltas with empty text are invisible to
    the trimming: two runs, even of different models, whose non-empty
    extracted fragments are the same surface the same fragments and end in
    the same closure; in particular such a delta does not count as the
    first one. *)
Theorem streamText_empty_deltas_invisible :
  forall (W1 PROMPT1 RAW1 W2 PROMPT2 RAW2 : Type)
    (model1 : StreamText.TextStreamingModel W1 PROMPT1 RAW1)
    (model2 : StreamText.TextStreamingModel W2 PROMPT2 RAW2)
    (shouldTrimWhitespace : bool) (raws1 : list RAW1) (raws2 : list RAW2),
  Props.fragments model1 raws1 = Props.fragments model2 raws2 ->
  Props.afterDeltas model1 shouldTrimWhitespace raws1
  = Props.afterDeltas model2 shouldTrimWhitespace raws2.
Proof.
  intros W1 P1 R1 W2 P2 R2 model1 model2 b raws1 raws2 Hfrags.
  unfold Props.afterDeltas.
  rewrite (iterate_fragments model1), (iterate_fragments model2).
  by rewrite Hfrags.
Qed.

Lemma streamText_empty_deltas_invisible_witness :
  Props.afterDeltas (Examples.scriptedTextModel None []) true
    [lit ""; lit " Hello"; lit ""; lit " world "]
  = Props.afterDeltas (Examples.scriptedTextModel None []) true
      Examples.helloWorld.
Proof.
  refine (streamText_empty_deltas_invisible unit unit jsstring unit unit
            jsstring (Examples.scriptedTextModel None [])
            (Examples.scriptedTextModel None []) true
            [lit ""; lit " Hello"; lit ""; lit " world "]
            Examples.helloWorld _).
  reflexivity.
Defined.

(** ** The llama.cpp delta queue: every body *)

Section DeltaQueueMore.

Import Stream LlamaCpp.

Variable rejected : RejectedPush.

Lemma close_closed {A : Type} (q : AsyncQueue.t A) :
  AsyncQueue.closed q = true -> AsyncQueue.close q = q.
Proof. destruct q as [vs cl err]. simpl. by intros ->. Qed.

(** Once the queue is closed, reading on does not change it. *)
Lemma forAwaitEvents_closed (events : list SseEvent)
  (failure : option JsError) (q : AsyncQueue.t (Delta LlamaCppTextStreamChunk)) :
  AsyncQueue.closed q = true ->
  snd (forAwaitEvents rejected events failure q) = q.
Proof.
  intros Hq. induction events as [|event events IH]; simpl.
  - by destruct failure.
  - destruct event as [eventData|e]; [|done].
    unfold pushTo, AsyncQueue.push. rewrite Hq.
    destruct rejected; [|done].
    destruct (stop eventData); [by rewrite close_closed|done].
Qed.

Lemma pushErrorAndClose_closed_both (error : JsError)
  (q : AsyncQueue.t (Delta LlamaCppTextStreamChunk)) :
  AsyncQueue.closed q = true ->
  match pushErrorAndClose rejected error q with
  | (Returned _, q') => q'
  | (Threw error', q') => snd (pushErrorAndClose rejected error' q')
  end = q.
Proof.
  intros Hq. unfold pushErrorAndClose, pushTo, AsyncQueue.push. rewrite Hq.
  destruct rejected; [by apply close_closed|]. by rewrite Hq.
Qed.

(** The queue once the body has been read, from what reading the events
    leaves. *)
Lemma queue_after_events (events : list SseEvent) (failure : option JsError) :
  createLlamaCppFullDeltaIterableQueue rejected (BodyEvents events failure)
  = match forAwaitEvents rejected events failure AsyncQueue.empty with
    | (Returned _, q) => q
    | (Threw error, q) =>
        if AsyncQueue.closed q then q
        else AsyncQueue.Make (AsyncQueue.values q ++ [DeltaError error]) true
               (AsyncQueue.terminalError q)
    end.
Proof.
  unfold createLlamaCppFullDeltaIterableQueue.
  destruct (forAwaitEvents rejected events failure AsyncQueue.empty)
    as [[[]|error] q]; [done|].
  destruct (AsyncQueue.closed q) eqn:Hq.
  - by apply pushErrorAndClose_closed_both.
  - unfold pushErrorAndClose. by rewrite pushTo_open.
Qed.

(** Reading from an open queue up to the first chunk with [stop] set. *)
Lemma forAwaitEvents_until_stop (before : list LlamaCppTextStreamChunk)
  (final : LlamaCppTextStreamChunk) (after : list SseEvent)
  (failure : option JsError) :
  forall q,
  Forall (fun c => stop c = false) before ->
  stop final = true ->
  AsyncQueue.closed q = false ->
  snd (forAwaitEvents rejected
         (map ValidEvent before ++ ValidEvent final :: after) failure q)
  = AsyncQueue.Make
      (AsyncQueue.values q ++ map DeltaValue (before ++ [final])) true
      (AsyncQueue.terminalError q).
Proof.
  induction before as [|c before IH]; intros q Hopen Hstop Hq.
  - cbn [map app forAwaitEvents]. rewrite pushTo_open by done. rewrite Hstop.
    by rewrite forAwaitEvents_closed.
  - inversion Hopen as [|? ? Hc Hopen']; subst.
    cbn [map app forAwaitEvents]. rewrite pushTo_open by done. rewrite Hc.
    rewrite IH by done. simpl. by rewrite <- app_assoc.
Qed.

(** Reading events that are all chunks without [stop] set. *)
Lemma forAwaitEvents_open_ended (chunks : list LlamaCppTextStreamChunk) :
  forall q,
  Forall (fun c => stop c = false) chunks ->
  AsyncQueue.closed q = false ->
  forAwaitEvents rejected (map ValidEvent chunks) None q
  = (Returned tt,
     AsyncQueue.Make (AsyncQueue.values q ++ map DeltaValue chunks) false
       (AsyncQueue.terminalError q)).
Proof.
  induction chunks as [|c chunks IH]; intros q Hopen Hq.
  - simpl. rewrite app_nil_r. destruct q; simpl in *; by subst.
  - inversion Hopen as [|? ? Hc Hopen']; subst.
    cbn [map forAwaitEvents]. rewrite pushTo_open by done. rewrite Hc.
    rewrite IH by done. simpl. by rewrite <- app_assoc.
Qed.

(** Whatever is read from an open queue, the deltas are added behind what
    the queue held, and nothing else. *)
Lemma forAwaitEvents_adds_deltas (events : list SseEvent)
  (failure : option JsError) :
  forall q,
  AsyncQueue.closed q = false ->
  exists chunks,
    AsyncQueue.values (snd (forAwaitEvents rejected events failure q))
    = AsyncQueue.values q ++ map DeltaValue chunks
    /\ AsyncQueue.terminalError
         (snd (forAwaitEvents rejected events failure q))
       = AsyncQueue.terminalError q.
Proof.
  induction events as [|event events IH]; intros q Hq.
  - exists []. simpl. rewrite app_nil_r. by destruct failure.
  - destruct event as [eventData|e].
    + cbn [forAwaitEvents]. rewrite pushTo_open by done.
      destruct (stop eventData).
      * rewrite forAwaitEvents_closed by done. exists [eventData]. done.
      * destruct (IH (AsyncQueue.Make (AsyncQueue.values q
                                        ++ [DeltaValue eventData]) false
                        (AsyncQueue.terminalError q)) eq_refl)
          as (chunks & Hv & He).
        exists (eventData :: chunks). rewrite Hv, He. simpl.
        by rewrite <- app_assoc.
    + exists []. simpl. by rewrite app_nil_r.
Qed.

End DeltaQueueMore.

(** X5.  The queue of a body is decided at its first chunk with [stop]
    set: it holds the chunks up to and including that one and is closed,
    whatever events or read errors follow, and whether a rejected push
    raises or not. *)
Theorem deltaQueue_ends_at_stop :
  forall (rejected : LlamaCpp.RejectedPush)
    (before : list LlamaCpp.LlamaCppTextStreamChunk)
    (final : LlamaCpp.LlamaCppTextStreamChunk)
    (after : list LlamaCpp.SseEvent) (failure : option JsError),
  Forall (fun c => LlamaCpp.stop c = false) before ->
  LlamaCpp.stop final = true ->
  LlamaCpp.createLlamaCppFullDeltaIterableQueue rejected
    (LlamaCpp.BodyEvents
       (map LlamaCpp.ValidEvent before ++ LlamaCpp.ValidEvent final :: after)
       failure)
  = AsyncQueue.Make (map Stream.DeltaValue (before ++ [final])) true None.
Proof.
  intros rejected before final after failure Hopen Hstop.
  rewrite queue_after_events.
  pose proof (forAwaitEvents_until_stop rejected before final after failure
                AsyncQueue.empty Hopen Hstop eq_refl) as Hq.
  destruct (LlamaCpp.forAwaitEvents rejected _ failure AsyncQueue.empty)
    as [[[]|error] q]; simpl in Hq; subst q; done.
Qed.

Lemma deltaQueue_ends_at_stop_witness :
  LlamaCpp.createLlamaCppFullDeltaIterableQueue LlamaCpp.Raises
    (LlamaCpp.BodyEvents
       (map LlamaCpp.ValidEvent [Examples.chunk "a" false]
        ++ LlamaCpp.ValidEvent (Examples.chunk "b" true)
           :: [LlamaCpp.InvalidEvent Examples.malformed])
       None)
  = AsyncQueue.Make
      (map Stream.DeltaValue
         ([Examples.chunk "a" false] ++ [Examples.chunk "b" true]))
      true None.
Proof.
  refine (deltaQueue_ends_at_stop LlamaCpp.Raises [Examples.chunk "a" false]
            (Examples.chunk "b" true)
            [LlamaCpp.InvalidEvent Examples.malformed] None _ _).
  - repeat constructor.
  - reflexivity.
Defined.

(** X6.  A body that ends without a chunk with [stop] set and without an
    error leaves the queue open: it holds all the chunks, and a consumer
    that has read them is suspended rather than finished. *)
Theorem deltaQueue_without_stop_stays_open :
  forall (rejected : LlamaCpp.RejectedPush)
    (chunks : list LlamaCpp.LlamaCppTextStreamChunk) (extra : nat),
  Forall (fun c => LlamaCpp.stop c = false) chunks ->
  let queue :=
    LlamaCpp.createLlamaCppFullDeltaIterableQueue rejected
      (LlamaCpp.BodyEvents (map LlamaCpp.ValidEvent chunks) None) in
  queue = AsyncQueue.Make (map Stream.DeltaValue chunks) false None
  /\ AsyncQueue.forAwait (S (length chunks) + extra) queue AsyncQueue.iterator
     = (map Stream.DeltaValue chunks, AsyncQueue.Suspended).
Proof.
  intros rejected chunks extra Hopen queue.
  assert (Hq : queue = AsyncQueue.Make (map Stream.DeltaValue chunks) false
                         None).
  { unfold queue. rewrite queue_after_events.
    by rewrite (forAwaitEvents_open_ended rejected chunks AsyncQueue.empty
                  Hopen eq_refl). }
  split; [exact Hq|]. rewrite Hq. clear.
  rewrite <- (length_map Stream.DeltaValue chunks).
  generalize (map (@Stream.DeltaValue LlamaCpp.LlamaCppTextStreamChunk) chunks).
  intros items. change items with ([] ++ items) at 2.
  change AsyncQueue.iterator with (length (@nil (Stream.Delta
                                     LlamaCpp.LlamaCppTextStreamChunk))).
  generalize (@nil (Stream.Delta LlamaCpp.LlamaCppTextStreamChunk)).
  induction items as [|item items IH]; intros seen.
  - change (S (length (@nil (Stream.Delta LlamaCpp.LlamaCppTextStreamChunk)))
            + extra)%nat with (S extra).
    rewrite forAwait_step. unfold AsyncQueue.next. cbn [AsyncQueue.values].
    rewrite app_nil_r.
    replace (nth_error seen (length seen))
      with (@None (Stream.Delta LlamaCpp.LlamaCppTextStreamChunk)); [done|].
    symmetry. by apply nth_error_None.
  - change (S (length (item :: items)) + extra)%nat
      with (S (S (length items) + extra)).
    rewrite forAwait_step. unfold AsyncQueue.next at 1.
    cbn [AsyncQueue.values].
    rewrite nth_error_app2 by done. rewrite Nat.sub_diag. cbn [nth_error].
    replace (seen ++ item :: items) with ((seen ++ [item]) ++ items)
      by (by rewrite <- app_assoc).
    replace (S (length seen)) with (length (seen ++ [item]))
      by (rewrite length_app; simpl; lia).
    by rewrite IH.
Qed.

Lemma deltaQueue_without_stop_stays_open_witness :
  AsyncQueue.closed
    (LlamaCpp.createLlamaCppFullDeltaIterableQueue LlamaCpp.FailsSilently
       (LlamaCpp.BodyEvents
          (map LlamaCpp.ValidEvent MoreExamples.openEndedChunks) None))
  = false.
Proof.
  pose proof (deltaQueue_without_stop_stays_open LlamaCpp.FailsSilently
                MoreExamples.openEndedChunks 0
                ltac:(repeat constructor)) as [Hq _].
  rewrite Hq. reflexivity.
Defined.

(** X7.  Whatever the body, the queue holds deltas followed by at most one
    error element: an error element is the last element, and the queue is
    closed when there is one. *)
Theorem deltaQueue_error_is_last :
  forall (rejected : LlamaCpp.RejectedPush) (stream : LlamaCpp.ResponseBody),
  let queue := LlamaCpp.createLlamaCppFullDeltaIterableQueue rejected stream in
  exists chunks,
    AsyncQueue.values queue = map Stream.DeltaValue chunks
    \/ (exists error,
          AsyncQueue.values queue
          = map Stream.DeltaValue chunks ++ [Stream.DeltaError error]
          /\ AsyncQueue.closed queue = true).
Proof.
  intros rejected [error|events failure] queue; subst queue.
  - exists []. right. exists error. done.
  - rewrite queue_after_events.
    destruct (forAwaitEvents_adds_deltas rejected events failure
                AsyncQueue.empty eq_refl) as (chunks & Hv & _).
    exists chunks.
    destruct (LlamaCpp.forAwaitEvents rejected events failure AsyncQueue.empty)
      as [[[]|error] q]; simpl in Hv; [by left|].
    destruct (AsyncQueue.closed q); [by left|].
    right. exists error. simpl. by rewrite Hv.
Qed.

(** ** Settings of the llama.cpp model: copies, templates, events, requests *)

(** A closed string is not among the closed strings of a list. *)
Ltac not_listed :=
  let Hin := fresh "Hin" in
  intros Hin;
  repeat (apply elem_of_cons in Hin as [Hin|Hin]; [discriminate Hin|]);
  exact (not_elem_of_nil _ Hin).

(** Membership in the domain of a store with one more object. *)
Ltac in_larger_store :=
  rewrite dom_insert_L;
  first [ apply elem_of_union_r; assumption
        | apply elem_of_union_l, elem_of_singleton; reflexivity ].

Section SettingsMore.

Import LlamaCpp LlamaCppTemplates.

(** What [withSettings] makes of a store. *)
Lemma withSettings_store (this : LlamaCppCompletionModel)
  (additionalSettings : positive) (h : Heap) :
  settings this ∈ dom h ->
  additionalSettings ∈ dom h ->
  let l := fresh (dom h) in
  withSettings this additionalSettings h
  = (newLlamaCppCompletionModel l
       (<[l := default ∅ (h !! additionalSettings)
               ∪ (default ∅ (h !! settings this) ∪ ∅)]> h),
     <[l := default ∅ (h !! additionalSettings)
             ∪ (default ∅ (h !! settings this) ∪ ∅)]> h).
Proof.
  intros Hthis Hadd l.
  pose proof (is_fresh (dom h)) as Hfresh. fold l in Hfresh.
  assert (Hne1 : settings this <> l)
    by (intros Heq; rewrite Heq in Hthis; done).
  assert (Hne2 : additionalSettings <> l)
    by (intros Heq; rewrite Heq in Hadd; done).
  unfold withSettings, newObject. cbv beta iota zeta. fold l.
  rewrite objectAssign_two by done.
  rewrite !lookup_insert_ne by done. rewrite lookup_insert_eq. simpl.
  by rewrite insert_insert_eq.
Qed.

Lemma override_lookup (over under : JsObject) (key : string) :
  (over ∪ (under ∪ ∅)) !! key
  = match over !! key with
    | Some v => Some v
    | None => under !! key
    end.
Proof.
  rewrite !lookup_union, lookup_empty.
  destruct (over !! key), (under !! key); done.
Qed.

End SettingsMore.

(** X8.  Two [withSettings] in a row compose: a key has the value of the
    second settings if these have it, else that of the first, else the
    model's; the model in between is a different object and keeps the
    settings it was given. *)
Theorem withSettings_twice :
  forall (this : LlamaCpp.LlamaCppCompletionModel) (first second : positive)
    (h : LlamaCpp.Heap),
  LlamaCpp.settings this ∈ dom h ->
  first ∈ dom h ->
  second ∈ dom h ->
  let step1 := LlamaCpp.withSettings this first h in
  let step2 := LlamaCpp.withSettings (fst step1) second (snd step1) in
  (forall key : string,
     default ∅ (snd step2 !! LlamaCpp.settings (fst step2)) !! key
     = match default ∅ (h !! second) !! key with
       | Some v => Some v
       | None =>
           match default ∅ (h !! first) !! key with
           | Some v => Some v
           | None => default ∅ (h !! LlamaCpp.settings this) !! key
           end
       end)
  /\ LlamaCpp.settings (fst step2) <> LlamaCpp.settings (fst step1)
  /\ snd step2 !! LlamaCpp.settings (fst step1)
     = snd step1 !! LlamaCpp.settings (fst step1)
  /\ snd step2 !! LlamaCpp.settings this = h !! LlamaCpp.settings this.
Proof.
  intros this first second h Hthis Hfirst Hsecond step1 step2.
  subst step2 step1.
  rewrite (withSettings_store this first h Hthis Hfirst).
  set (l1 := fresh (dom h)).
  set (h1 := <[l1 := _]> h).
  pose proof (is_fresh (dom h)) as Hfresh1. fold l1 in Hfresh1.
  assert (Hl1 : l1 ∈ dom h1) by (subst h1; in_larger_store).
  assert (Hsecond1 : second ∈ dom h1)
    by (subst h1; in_larger_store).
  cbn [fst snd].
  rewrite (withSettings_store (LlamaCpp.newLlamaCppCompletionModel l1 h1)
             second h1 Hl1 Hsecond1).
  cbn [fst snd LlamaCpp.settings LlamaCpp.newLlamaCppCompletionModel].
  set (l2 := fresh (dom h1)).
  pose proof (is_fresh (dom h1)) as Hfresh2. fold l2 in Hfresh2.
  assert (Hne : l2 <> l1) by (intros Heq; by rewrite Heq in Hfresh2).
  assert (Hne2 : second <> l1) by (intros Heq; by rewrite Heq in Hsecond).
  assert (Hne3 : LlamaCpp.settings this <> l1)
    by (intros Heq; by rewrite Heq in Hthis).
  assert (Hne4 : LlamaCpp.settings this <> l2).
  { intros Heq. apply Hfresh2. rewrite <- Heq. subst h1. in_larger_store. }
  split; [|split; [done|split]].
  - intros key. rewrite lookup_insert_eq. simpl.
    rewrite override_lookup. subst h1.
    rewrite lookup_insert_ne by done. rewrite lookup_insert_eq. simpl.
    by rewrite override_lookup.
  - by rewrite lookup_insert_ne.
  - rewrite lookup_insert_ne by done. subst h1. by rewrite lookup_insert_ne.
Qed.

Lemma withSettings_twice_witness :
  let step1 :=
    LlamaCpp.withSettings Examples.settingsModel 2%positive
      MoreExamples.largerHeap in
  let step2 := LlamaCpp.withSettings (fst step1) 3%positive (snd step1) in
  LlamaCpp.settings (fst step2) <> LlamaCpp.settings (fst step1).
Proof.
  intros step1 step2.
  refine (proj1 (proj2 (withSettings_twice Examples.settingsModel 2%positive
            3%positive MoreExamples.largerHeap _ _ _)));
    apply elem_of_dom; eexists; reflexivity.
Defined.

(** X9.  [withPromptTemplate] on a model whose stop sequences are an array
    (or absent) gives a model with the template's stop sequences added
    behind the model's own, every other setting as in the model, and
    leaves the model's settings object and every other object as they
    were. *)
Theorem withPromptTemplate_adds_stop_sequences :
  forall (INPUT_PROMPT : Type) (this : LlamaCpp.LlamaCppCompletionModel)
    (promptTemplate :
       LlamaCppTemplates.TextGenerationPromptTemplate INPUT_PROMPT)
    (h : LlamaCpp.Heap) (existing : list LlamaCpp.JsValue),
  LlamaCpp.settings this ∈ dom h ->
  LlamaCppTemplates.spreadOrEmpty
    (LlamaCpp.setting h (LlamaCpp.settings this) "stopSequences")
  = Returned existing ->
  exists wrapped h',
    LlamaCppTemplates.withPromptTemplate this promptTemplate h
    = (Returned wrapped, h')
    /\ LlamaCppTemplates.promptTemplate wrapped = promptTemplate
    /\ LlamaCpp.setting h'
         (LlamaCpp.settings (LlamaCppTemplates.model wrapped)) "stopSequences"
       = LlamaCpp.VArray
           (existing
            ++ map LlamaCpp.VString
                 (LlamaCppTemplates.stopSequences promptTemplate))
    /\ (forall key : string,
          key <> "stopSequences"%string ->
          default ∅ (h' !! LlamaCpp.settings (LlamaCppTemplates.model wrapped))
            !! key
          = default ∅ (h !! LlamaCpp.settings this) !! key)
    /\ (forall l : positive, l ∈ dom h -> h' !! l = h !! l).
Proof.
  intros INPUT this template h existing Hthis Hspread.
  unfold LlamaCppTemplates.withPromptTemplate. rewrite Hspread.
  unfold LlamaCppTemplates.newStopSequencesObject.
  set (l0 := fresh (dom h)).
  set (stops := LlamaCpp.VArray _).
  set (h0 := <[l0 := {[ "stopSequences"%string := stops ]}]> h).
  pose proof (is_fresh (dom h)) as Hfresh0. fold l0 in Hfresh0.
  assert (Hthis0 : LlamaCpp.settings this ∈ dom h0)
    by (subst h0; in_larger_store).
  assert (Hl0 : l0 ∈ dom h0) by (subst h0; in_larger_store).
  assert (Hne0 : LlamaCpp.settings this <> l0)
    by (intros Heq; by rewrite Heq in Hthis).
  cbv beta iota zeta.
  rewrite (withSettings_store this l0 h0 Hthis0 Hl0).
  set (l1 := fresh (dom h0)).
  pose proof (is_fresh (dom h0)) as Hfresh1. fold l1 in Hfresh1.
  eexists _, _. split; [reflexivity|].
  cbn [LlamaCppTemplates.promptTemplate LlamaCppTemplates.model
         LlamaCpp.settings LlamaCpp.newLlamaCppCompletionModel].
  assert (Hh0 : h0 !! l0 = Some {[ "stopSequences"%string := stops ]})
    by (subst h0; apply lookup_insert_eq).
  assert (Hh0' : h0 !! LlamaCpp.settings this = h !! LlamaCpp.settings this)
    by (subst h0; by rewrite lookup_insert_ne).
  split; [done|]. split; [|split].
  - unfold LlamaCpp.setting. rewrite lookup_insert_eq. simpl.
    rewrite override_lookup, Hh0. simpl. by rewrite lookup_singleton_eq.
  - intros key Hkey. rewrite lookup_insert_eq. simpl.
    rewrite override_lookup, Hh0, Hh0'. simpl.
    by rewrite lookup_singleton_ne.
  - intros l Hl.
    assert (l <> l1).
    { intros Heq. apply Hfresh1. rewrite <- Heq. subst h0.
      in_larger_store. }
    assert (l <> l0) by (intros Heq; by rewrite Heq in Hl).
    rewrite lookup_insert_ne by done. subst h0. by rewrite lookup_insert_ne.
Qed.

Lemma withPromptTemplate_adds_stop_sequences_witness :
  exists wrapped h',
    LlamaCppTemplates.withTextPrompt Examples.settingsModel
      Examples.settingsHeap
    = (Returned wrapped, h')
    /\ LlamaCpp.setting h'
         (LlamaCpp.settings (LlamaCppTemplates.model wrapped)) "stopSequences"
       = LlamaCpp.VArray [].
Proof.
  destruct (withPromptTemplate_adds_stop_sequences jsstring
              Examples.settingsModel
              {| LlamaCppTemplates.format :=
                   fun prompt =>
                     {| LlamaCpp.text := prompt; LlamaCpp.images := None |};
                 LlamaCppTemplates.stopSequences := [] |}
              Examples.settingsHeap []
              ltac:(apply elem_of_dom; eexists; reflexivity) eq_refl)
    as (wrapped & h' & Hcall & _ & Hstop & _).
  exists wrapped, h'. split; [exact Hcall|exact Hstop].
Defined.

(** X10.  The settings reported in events after [withSettings] never
    include the API configuration (as long as the text generation
    properties do not list it), and for every listed property they have
    the value of the additional settings where these have the property and
    the model's value elsewhere. *)
Theorem settingsForEvent_after_withSettings :
  forall (textGenerationModelProperties : list string)
    (this : LlamaCpp.LlamaCppCompletionModel) (additionalSettings : positive)
    (h : LlamaCpp.Heap),
  LlamaCpp.settings this ∈ dom h ->
  additionalSettings ∈ dom h ->
  "api"%string ∉ textGenerationModelProperties ->
  let result := LlamaCpp.withSettings this additionalSettings h in
  let reported :=
    LlamaCppTemplates.settingsForEvent textGenerationModelProperties
      (snd result) (fst result) in
  reported !! "api"%string = None
  /\ (forall key : string,
        key ∈ textGenerationModelProperties
              ++ LlamaCppTemplates.ownEventSettingProperties ->
        reported !! key
        = match default ∅ (h !! additionalSettings) !! key with
          | Some v => Some v
          | None => default ∅ (h !! LlamaCpp.settings this) !! key
          end)
  /\ (forall key : string,
        key ∉ textGenerationModelProperties
              ++ LlamaCppTemplates.ownEventSettingProperties ->
        reported !! key = None).
Proof.
  intros props this additional h Hthis Hadd Hapi result reported.
  subst reported result.
  rewrite (withSettings_store this additional h Hthis Hadd).
  cbn [fst snd]. unfold LlamaCppTemplates.settingsForEvent.
  cbn [LlamaCpp.settings LlamaCpp.newLlamaCppCompletionModel].
  rewrite lookup_insert_eq. simpl.
  assert (Hnot : forall key : string,
            key ∉ props ++ LlamaCppTemplates.ownEventSettingProperties ->
            filter (fun entry : string * LlamaCpp.JsValue =>
                      entry.1 ∈ props
                                ++ LlamaCppTemplates.ownEventSettingProperties)
              (default ∅ (h !! additional)
               ∪ (default ∅ (h !! LlamaCpp.settings this) ∪ ∅)) !! key
            = None).
  { intros key Hkey. apply map_lookup_filter_None. right.
    intros v _ Hin. by apply Hkey. }
  split; [|split].
  - apply Hnot. rewrite elem_of_app. intros [Hin|Hin]; [done|].
    revert Hin. unfold LlamaCppTemplates.ownEventSettingProperties.
    not_listed.
  - intros key Hkey. rewrite <- override_lookup.
    destruct ((default ∅ (h !! additional)
               ∪ (default ∅ (h !! LlamaCpp.settings this) ∪ ∅)) !! key)
      as [v|] eqn:Hv.
    + apply map_lookup_filter_Some. done.
    + apply map_lookup_filter_None. by left.
  - exact Hnot.
Qed.

Lemma settingsForEvent_after_withSettings_witness :
  let result :=
    LlamaCpp.withSettings Examples.apiModel 1%positive Examples.apiHeap in
  LlamaCppTemplates.settingsForEvent ["trimWhitespace"%string]
    (snd result) (fst result) !! "api"%string
  = None.
Proof.
  intros result.
  refine (proj1 (settingsForEvent_after_withSettings
            ["trimWhitespace"%string] Examples.apiModel 1%positive
            Examples.apiHeap _ _ _)).
  - apply elem_of_dom; eexists; reflexivity.
  - apply elem_of_dom; eexists; reflexivity.
  - not_listed.
Defined.

(** X11.  The request body reads the prompt, the stream flag and the
    listed request settings only: two models whose settings agree on these
    send the same body, and writing any other setting (the API
    configuration, [trimWhitespace], ...) does not change it. *)
Theorem requestBody_reads_request_settings_only :
  forall (h : LlamaCpp.Heap) (this : LlamaCpp.LlamaCppCompletionModel)
    (prompt : LlamaCpp.LlamaCppCompletionPrompt) (stream : bool),
  (forall h' this',
     (forall key : string,
        key ∈ LlamaCppTemplates.requestSettings ->
        LlamaCpp.setting h (LlamaCpp.settings this) key
        = LlamaCpp.setting h' (LlamaCpp.settings this') key) ->
     LlamaCpp.requestBodyOf h this prompt stream
     = LlamaCpp.requestBodyOf h' this' prompt stream)
  /\ (forall (key : string) (v : LlamaCpp.JsValue),
        key ∉ LlamaCppTemplates.requestSettings ->
        LlamaCpp.requestBodyOf
          (<[LlamaCpp.settings this :=
               <[key := v]> (default ∅ (h !! LlamaCpp.settings this))]> h)
          this prompt stream
        = LlamaCpp.requestBodyOf h this prompt stream).
Proof.
  intros h this prompt stream.
  assert (Hagree : forall h' this',
     (forall key : string,
        key ∈ LlamaCppTemplates.requestSettings ->
        LlamaCpp.setting h (LlamaCpp.settings this) key
        = LlamaCpp.setting h' (LlamaCpp.settings this') key) ->
     LlamaCpp.requestBodyOf h this prompt stream
     = LlamaCpp.requestBodyOf h' this' prompt stream).
  { intros h' this' Hkeys. unfold LlamaCpp.requestBodyOf. do 2 f_equal.
    apply map_ext_in. intros [property key] Hin. f_equal. f_equal.
    apply Hkeys. unfold LlamaCppTemplates.requestSettings.
    apply list_elem_of_In. by apply (in_map snd) in Hin. }
  split; [exact Hagree|].
  intros key v Hkey. symmetry. apply Hagree. intros key' Hkey'.
  unfold LlamaCpp.setting. rewrite lookup_insert_eq. simpl.
  rewrite lookup_insert_ne; [done|]. intros <-. done.
Qed.

Lemma requestBody_reads_request_settings_only_witness :
  LlamaCpp.requestBodyOf
    (<[LlamaCpp.settings Examples.settingsModel :=
         <["trimWhitespace"%string := LlamaCpp.VBool false]>
           (default ∅ (Examples.settingsHeap
                         !! LlamaCpp.settings Examples.settingsModel))]>
       Examples.settingsHeap)
    Examples.settingsModel Examples.storyPrompt true
  = LlamaCpp.requestBodyOf Examples.settingsHeap Examples.settingsModel
      Examples.storyPrompt true.
Proof.
  refine (proj2 (requestBody_reads_request_settings_only
            Examples.settingsHeap Examples.settingsModel Examples.storyPrompt
            true) "trimWhitespace"%string (LlamaCpp.VBool false) _).
  unfold LlamaCppTemplates.requestSettings, LlamaCpp.settingsProperties.
  simpl. not_listed.
Defined.

(** ** generate and safeGenerate: more on the error paths *)

(** X12.  [generate] returns an output exactly when [safeGenerate] returns
    an [ok] result with that output; the events and the effects of both are
    the same. *)
Theorem generate_returns_iff_ok :
  forall (W INPUT PROMPT_TYPE RAW_OUTPUT GENERATED_OUTPUT OUTPUT : Type)
    (defaultMaxTries : nat)
    (options : Generate.GenerateOptions W INPUT PROMPT_TYPE RAW_OUTPUT
                 GENERATED_OUTPUT OUTPUT)
    (context : option (Generate.RunContext PROMPT_TYPE RAW_OUTPUT
                         GENERATED_OUTPUT OUTPUT))
    (env : Environment) (w : W),
  (forall output trace w',
     Generate.generate defaultMaxTries options context env w
     = (Returned output, trace, w')
     <-> Generate.safeGenerate defaultMaxTries options context env w
         = (Returned (Generate.Ok output), trace, w'))
  /\ snd (fst (Generate.generate defaultMaxTries options context env w))
     = snd (fst (Generate.safeGenerate defaultMaxTries options context env w))
  /\ snd (Generate.generate defaultMaxTries options context env w)
     = snd (Generate.safeGenerate defaultMaxTries options context env w).
Proof.
  intros W INPUT P R G O n options context env w.
  unfold Generate.generate.
  destruct (Generate.safeGenerate n options context env w)
    as [[[result|e] trace0] w0].
  - destruct result as [output0|[|] error]; (split; [|done]);
      intros output trace w'; split; intros H; try discriminate;
      by injection H as <- <- <-.
  - split; [|done]. intros output trace w'. split; intros H; discriminate.
Qed.

(** X13.  After a failure or an abort of the retried model call the output
    is neither extracted nor processed: the whole result of [safeGenerate]
    (result object, events, effects) is the same for any other output
    handlers. *)
Theorem safeGenerate_skips_output_handlers :
  forall (W INPUT PROMPT_TYPE RAW_OUTPUT GENERATED_OUTPUT OUTPUT : Type)
    (defaultMaxTries : nat)
    (options : Generate.GenerateOptions W INPUT PROMPT_TYPE RAW_OUTPUT
                 GENERATED_OUTPUT OUTPUT)
    (context : option (Generate.RunContext PROMPT_TYPE RAW_OUTPUT
                         GENERATED_OUTPUT OUTPUT))
    (env : Environment) (w w1 w2 : W)
    (expandedPrompt : PROMPT_TYPE) (outcome : Retry.RetryOutcome RAW_OUTPUT)
    (extractOutput : option (RAW_OUTPUT -> Action W GENERATED_OUTPUT))
    (processOutput : GENERATED_OUTPUT -> Action W OUTPUT),
  Generate.prompt options (Generate.input options) w
  = (Returned expandedPrompt, w1) ->
  default (Retry.retryWithExponentialBackoff defaultMaxTries)
    (Generate.retry options) RAW_OUTPUT
    (Generate.modelGenerate (Generate.optModel options) expandedPrompt
       (context ≫= Generate.abortSignal)) w1
  = (outcome, w2) ->
  (forall raw tries, outcome <> Retry.Success raw tries) ->
  Generate.safeGenerate defaultMaxTries
    (GenerateMore.withOutputHandlers options extractOutput processOutput)
    context env w
  = Generate.safeGenerate defaultMaxTries options context env w.
Proof.
  intros W INPUT P R G O n options context env w w1 w2 ep outcome
    extract process Hp Hr Hfail.
  unfold Generate.safeGenerate, GenerateMore.withOutputHandlers. simpl.
  rewrite Hp. cbv zeta.
  destruct (Generate.notifyStart _ context _) as [[u|e] started]; [|done].
  rewrite Hr.
  destruct outcome as [raw tries|error|]; [by destruct (Hfail raw tries)| |];
    reflexivity.
Qed.

Lemma safeGenerate_skips_output_handlers_witness :
  Generate.safeGenerate 3
    (GenerateMore.withOutputHandlers Examples.abortedOptions None
       (fun _ w => (Threw (OtherError "invalid output"), w)))
    None Examples.environment tt
  = Generate.safeGenerate 3 Examples.abortedOptions None
      Examples.environment tt.
Proof.
  refine (safeGenerate_skips_output_handlers unit jsstring jsstring jsstring
            jsstring jsstring 3 Examples.abortedOptions None
            Examples.environment tt tt tt (lit "prompt") Retry.Abort None
            (fun _ w => (Threw (OtherError "invalid output"), w)) _ _ _).
  - reflexivity.
  - reflexivity.
  - discriminate.
Defined.

(** ** useToolOrGenerateText *)

Section ToolFacts.

Context {W PROMPT PARAMETERS RESULT SCHEMA : Type}.

Lemma findTool_none (tools : list (Tools.Tool W PARAMETERS RESULT SCHEMA))
  (schema : string) :
  Tools.findTool tools schema = None
  <-> schema ∉ map Tools.name tools.
Proof.
  unfold Tools.findTool. induction tools as [|tool tools IH]; simpl.
  - split; [intros _; apply not_elem_of_nil|done].
  - rewrite not_elem_of_cons.
    destruct (String.eqb (Tools.name tool) schema) eqn:Heq.
    + apply String.eqb_eq in Heq. split; [done|]. intros [Hne _]. done.
    + apply String.eqb_neq in Heq. rewrite IH. split; [|tauto].
      intros H. split; [congruence|done].
Qed.

Lemma findTool_first (before after : list (Tools.Tool W PARAMETERS RESULT SCHEMA))
  (tool : Tools.Tool W PARAMETERS RESULT SCHEMA) :
  Tools.name tool ∉ map Tools.name before ->
  Tools.findTool (before ++ tool :: after) (Tools.name tool) = Some tool.
Proof.
  unfold Tools.findTool. induction before as [|other before IH]; simpl.
  - intros _. by rewrite String.eqb_refl.
  - rewrite not_elem_of_cons. intros [Hne Hrest].
    destruct (String.eqb (Tools.name other) (Tools.name tool)) eqn:Heq.
    + apply String.eqb_eq in Heq. congruence.
    + by apply IH.
Qed.

(** The tool found is one of the tools and has the name. *)
Lemma findTool_some (tools : list (Tools.Tool W PARAMETERS RESULT SCHEMA))
  (schema : string) (tool : Tools.Tool W PARAMETERS RESULT SCHEMA) :
  Tools.findTool tools schema = Some tool ->
  tool ∈ tools /\ Tools.name tool = schema.
Proof.
  unfold Tools.findTool. intros Hfind. apply find_some in Hfind.
  destruct Hfind as [Hin Heq]. apply String.eqb_eq in Heq.
  split; [by apply list_elem_of_In|done].
Qed.

End ToolFacts.

(** X14.  No tool is executed unless the model names one of the tools: a
    text response is returned as it is, and a response with a schema that
    no tool has makes the call throw [NoSuchToolError] for that schema,
    the effects in both cases being those of the model call alone.  When
    a tool has the name, the call completes as the execution of a tool of
    that name does, so that it throws [NoSuchToolError] then only if the
    tool itself does. *)
Theorem useToolOrGenerateText_without_tool :
  forall (W PROMPT PARAMETERS RESULT SCHEMA : Type)
    (generateJsonOrText :
       list (Tools.SchemaDefinition SCHEMA) -> PROMPT ->
       option Stream.FunctionOptions ->
       Action W (Tools.ModelResponse PARAMETERS))
    (tools : list (Tools.Tool W PARAMETERS RESULT SCHEMA))
    (prompt : list (Tools.Tool W PARAMETERS RESULT SCHEMA) -> PROMPT)
    (options : option Stream.FunctionOptions) (w w1 : W)
    (modelResponse : Tools.ModelResponse PARAMETERS),
  generateJsonOrText (Tools.schemaDefinitions tools) (prompt tools) options w
  = (Returned modelResponse, w1) ->
  match modelResponse with
  | Tools.TextResponse text =>
      Tools.useToolOrGenerateText generateJsonOrText tools prompt options w
      = (Returned (Tools.NoTool text), w1)
  | Tools.JsonResponse schema value text =>
      (schema ∉ map Tools.name tools ->
       Tools.useToolOrGenerateText generateJsonOrText tools prompt options w
       = (Threw (NoSuchToolError schema), w1))
      /\ (schema ∈ map Tools.name tools ->
          exists tool,
            tool ∈ tools /\ Tools.name tool = schema
            /\ Tools.useToolOrGenerateText generateJsonOrText tools prompt
                 options w
               = match Tools.execute tool value w1 with
                 | (Returned result, w2) =>
                     (Returned (Tools.ToolRun schema value result text), w2)
                 | (Threw e, w2) => (Threw e, w2)
                 end)
  end.
Proof.
  intros W PROMPT PARAMETERS RESULT SCHEMA generate tools prompt options
    w w1 modelResponse Hcall.
  unfold Tools.useToolOrGenerateText. rewrite Hcall.
  destruct modelResponse as [text|schema value text]; [done|].
  destruct (Tools.findTool tools schema) as [tool|] eqn:Hfind.
  - split.
    + intros Hnot. apply findTool_none in Hnot. congruence.
    + intros _. exists tool. apply findTool_some in Hfind.
      destruct Hfind as [Hin Hname]. split; [done|]. split; [done|].
      by destruct (Tools.execute tool value w1) as [[result|e] w2].
  - split; [done|]. intros Hin. by apply findTool_none in Hfind.
Qed.

Lemma useToolOrGenerateText_without_tool_witness :
  Tools.useToolOrGenerateText (MoreExamples.askingFor "weather")
    MoreExamples.toolbox (fun _ => lit "prompt") None []
  = (Threw (NoSuchToolError "weather"), []).
Proof.
  refine (proj1 (useToolOrGenerateText_without_tool (list string) jsstring
            jsstring jsstring unit (MoreExamples.askingFor "weather")
            MoreExamples.toolbox (fun _ => lit "prompt") None [] []
            (Tools.JsonResponse "weather" (lit "query") None) _) _).
  - reflexivity.
  - simpl. not_listed.
Defined.

(** X15.  When the model names a tool, the first tool of the list with
    that name is executed, once, on the parameters of the response; tools
    after it, also of the same name, are not touched, and the result names
    the tool and carries the parameters, the tool's result and the
    text. *)
Theorem useToolOrGenerateText_first_match :
  forall (W PROMPT PARAMETERS RESULT SCHEMA : Type)
    (generateJsonOrText :
       list (Tools.SchemaDefinition SCHEMA) -> PROMPT ->
       option Stream.FunctionOptions ->
       Action W (Tools.ModelResponse PARAMETERS))
    (before after : list (Tools.Tool W PARAMETERS RESULT SCHEMA))
    (tool : Tools.Tool W PARAMETERS RESULT SCHEMA)
    (prompt : list (Tools.Tool W PARAMETERS RESULT SCHEMA) -> PROMPT)
    (options : option Stream.FunctionOptions) (w w1 : W)
    (value : PARAMETERS) (text : option jsstring),
  let tools := before ++ tool :: after in
  Tools.name tool ∉ map Tools.name before ->
  generateJsonOrText (Tools.schemaDefinitions tools) (prompt tools) options w
  = (Returned (Tools.JsonResponse (Tools.name tool) value text), w1) ->
  Tools.useToolOrGenerateText generateJsonOrText tools prompt options w
  = match Tools.execute tool value w1 with
    | (Returned result, w2) =>
        (Returned (Tools.ToolRun (Tools.name tool) value result text), w2)
    | (Threw e, w2) => (Threw e, w2)
    end.
Proof.
  intros W PROMPT PARAMETERS RESULT SCHEMA generate before after tool prompt
    options w w1 value text tools Hfirst Hcall.
  unfold Tools.useToolOrGenerateText. rewrite Hcall.
  subst tools. rewrite (findTool_first before after tool Hfirst).
  destruct (Tools.execute tool value w1) as [[result|e] w2]; done.
Qed.

Lemma useToolOrGenerateText_first_match_witness :
  Tools.useToolOrGenerateText (MoreExamples.askingFor "search")
    MoreExamples.toolbox (fun _ => lit "prompt") None []
  = (Returned (Tools.ToolRun "search" (lit "query") (lit "query") None),
     ["first search"%string]).
Proof.
  refine (useToolOrGenerateText_first_match (list string) jsstring jsstring
            jsstring unit (MoreExamples.askingFor "search")
            [MoreExamples.loggingTool "calculator" "calculator"]
            [MoreExamples.loggingTool "search" "second search"]
            (MoreExamples.loggingTool "search" "first search")
            (fun _ => lit "prompt") None [] []
            (lit "query") None _ _).
  - simpl. not_listed.
  - reflexivity.
Defined.

(** ** streamSpeech: the buffers *)

(** X16.  [streamSpeech] surfaces the buffers of the model's stream as
    they are: the stream it returns yields exactly the values of the raw
    deltas before the first error delta, in order, none dropped and none
    changed. *)
Theorem streamSpeech_passes_buffers_through :
  forall (W : Type) (model : StreamSpeech.StreamingSpeechGenerationModel W)
    (text : StreamSpeech.TextInput) (options : option Stream.FunctionOptions)
    (env : Environment) (w w' : W)
    (deltas : list (Stream.Delta StreamSpeech.Buffer)),
  StreamSpeech.doGenerateSpeechStreamDuplex model
    (StreamSpeech.textStreamOf text) options w
  = (Returned deltas, w') ->
  exists result events,
    StreamSpeech.streamSpeech model text options env w
    = (Returned result, events, w')
    /\ Stream.items (MoreProps.speechOf result)
       = MoreProps.valuesBeforeError deltas.
Proof.
  intros W model text options env w w' deltas Hstart.
  unfold StreamSpeech.streamSpeech, Stream.executeStreamCall.
  rewrite Hstart.
  pose proof (iterate_passes_values deltas) as Hout.
  destruct (Stream.iterate _ deltas ()) as [[out fin] s]. simpl in Hout.
  subst out.
  destruct fin; eexists _, _; (split; [reflexivity|]);
    destruct (Stream.wantsFullResponse options); done.
Qed.

Lemma streamSpeech_passes_buffers_through_witness :
  exists result events,
    StreamSpeech.streamSpeech
      (MoreExamples.scriptedSpeechModel
         [Stream.DeltaValue [1; 2]; Stream.DeltaValue [];
          Stream.DeltaError Examples.malformed; Stream.DeltaValue [3]])
      (StreamSpeech.TextString (lit "Hello")) None Examples.environment tt
    = (Returned result, events, tt)
    /\ Stream.items (MoreProps.speechOf result)
       = MoreProps.valuesBeforeError
           [Stream.DeltaValue [1; 2]; Stream.DeltaValue [];
            Stream.DeltaError Examples.malformed; Stream.DeltaValue [3]].
Proof.
  refine (streamSpeech_passes_buffers_through unit
            (MoreExamples.scriptedSpeechModel
               [Stream.DeltaValue [1; 2]; Stream.DeltaValue [];
                Stream.DeltaError Examples.malformed; Stream.DeltaValue [3]])
            (StreamSpeech.TextString (lit "Hello")) None Examples.environment
            tt tt _ _).
  reflexivity.
Defined.
